(** * Sales dashboard: the filter-and-aggregate pipeline of [app.py]

    The script reads a table of sale records, derives three columns,
    filters the table by four sidebar selections and reduces the filtered
    table to the figures behind each chart.  This development embeds that
    pipeline and checks the properties the specification states about it.

    Modelling conventions.
    - A data frame is the list of its rows, in row order; a column is the
      projection of a field over that list ([df['SALES']] is
      [SALES <$> df]).  Vectorised column arithmetic is therefore
      row-wise arithmetic.
    - The first part gives the source columns what the data model says
      they hold: integers are [Z], currency amounts are exact rationals
      [Q], categorical cells are strings.  [PROFIT_MARGIN] is the one
      column the script itself can fill with special values (a division
      by a zero price), so it is a [float64]: a finite rational, an
      infinity or not-a-number.
    - The part [AsRead] follows the same lines of the script with the
      cells as [read_csv] returns them: a cell that is empty in the file
      is missing, an amount is a binary64 number, and sums are computed
      the way NumPy computes them.  What depends on rounding, on the sign
      of a zero or on missing cells is stated there.
    - A call that raises ends the run; such a call returns an
      [outcome]. *)

From stdpp Require Import base decidable list strings gmap sorting.
From Stdlib Require Import ZArith NArith QArith Qround Qpower Ascii String.
From Stdlib Require Import Lia Lqa Floats.
From Stdlib Require Uint63.

Set Warnings "-inexact-float".

Close Scope Q_scope.
Local Open Scope string_scope.
Local Open Scope list_scope.

(** ** Numbers *)

(** A cell of a float column: exact on the finite values, with the three
    special values that IEEE arithmetic produces without raising. *)
Inductive float64 : Type :=
  | Finite (q : Q)
  | PosInf
  | NegInf
  | NaN.

(** Same float up to the representation of the rational. *)
Definition feq (x y : float64) : Prop :=
  match x, y with
  | Finite a, Finite b => (a == b)%Q
  | PosInf, PosInf | NegInf, NegInf | NaN, NaN => True
  | _, _ => False
  end.

Definition is_finite (x : float64) : bool :=
  match x with Finite _ => true | _ => false end.

Definition isna (x : float64) : bool :=
  match x with NaN => true | _ => false end.

(** The infinity whose sign is that of the comparison [c] of a value with
    zero; a zero value gives not-a-number. *)
Definition signed_inf (c : comparison) : float64 :=
  match c with Gt => PosInf | Lt => NegInf | Eq => NaN end.

Definition fadd (x y : float64) : float64 :=
  match x, y with
  | NaN, _ | _, NaN => NaN
  | Finite a, Finite b => Finite (a + b)
  | PosInf, NegInf | NegInf, PosInf => NaN
  | PosInf, _ | _, PosInf => PosInf
  | NegInf, _ | _, NegInf => NegInf
  end.

Definition fmul (x y : float64) : float64 :=
  match x, y with
  | NaN, _ | _, NaN => NaN
  | Finite a, Finite b => Finite (a * b)
  | PosInf, Finite b | Finite b, PosInf => signed_inf (b ?= 0)%Q
  | NegInf, Finite b | Finite b, NegInf => signed_inf (0 ?= b)%Q
  | PosInf, PosInf | NegInf, NegInf => PosInf
  | PosInf, NegInf | NegInf, PosInf => NegInf
  end.

(** True division of two float cells: a zero divisor gives an infinity
    with the sign of the dividend, or not-a-number for [0 / 0]; nothing
    is raised.  The rationals have one zero; the sign of a zero divisor
    is followed in [AsRead]. *)
Definition fdiv (x y : float64) : float64 :=
  match x, y with
  | NaN, _ | _, NaN => NaN
  | Finite a, Finite b =>
      if Qeq_bool b 0 then signed_inf (a ?= 0)%Q else Finite (a / b)
  | Finite _, _ => Finite 0
  | PosInf, Finite b => if Qle_bool 0 b then PosInf else NegInf
  | NegInf, Finite b => if Qle_bool 0 b then NegInf else PosInf
  | _, _ => NaN
  end.

(** ** Failures

    What a call of the script comes to: the value it returns, or the
    exception it raises. *)
Inductive exception : Type := KeyError | TypeError | ValueError.

Inductive outcome (A : Type) : Type :=
  | Returns (a : A)
  | Raises (e : exception).

Arguments Returns {A} a.
Arguments Raises {A} e.

(** The type [read_csv] gives a column: a type of numbers ([int64] or
    [float64]) when it reads every cell of the column as a number or as
    missing, [object] otherwise; a file with a header and no row has no
    cell to read, and its columns are of type [object]. *)
Inductive dtype : Type := dtype_numeric | dtype_object.

(** ** Calendar dates and the year-month key *)

Record date : Type := { year : N; month : N; day : N }.

(** The range of years a pandas timestamp can hold, and a real month. *)
Definition valid_date (d : date) : Prop :=
  (1677 <= year d <= 2262)%N ∧ (1 <= month d <= 12)%N.

Definition digit (n : N) : ascii := ascii_of_N (48 + n mod 10).

(** [n] written in decimal on exactly [w] digits, padded with zeros. *)
Fixpoint zfill (w : nat) (n : N) : string :=
  match w with
  | O => ""
  | S w' => zfill w' (n / 10) ++ String (digit n) ""
  end.

(** [dt.to_period('M').astype(str)]: the month of the date as
    ["YYYY-MM"]. *)
Definition year_month (d : date) : string :=
  zfill 4 (year d) ++ "-" ++ zfill 2 (month d).

(** Number of the month on the calendar, the ordinal of the monthly
    period. *)
Definition month_ordinal (d : date) : N := (12 * year d + (month d - 1))%N.

(** ** Sale records *)

(** One row of [sales_data.csv] after [read_csv] and [to_datetime]. *)
Record RawRecord : Type := {
  ORDER_NUMBER : Z;
  ORDER_DATE : date;
  QUANTITY_ORDERED : Z;
  PRICE_EACH : Q;
  MSRP : Q;
  SALES : Q;
  PRODUCTLINE : string;
  PRODUCTCODE : string;
  COUNTRY : string;
  DEALSIZE : string;
  STATUS : string;
  CUSTOMER_NAME : string;
  YEAR : Z
}.

(** A row of the loaded frame: the source row and the derived columns. *)
Record SaleRecord : Type := {
  source :> RawRecord;
  YEAR_MONTH : string;
  PROFIT : Q;
  PROFIT_MARGIN : float64
}.

Abbreviation DataFrame := (list SaleRecord).

(** ** [load_data] *)

Definition derive (r : RawRecord) : SaleRecord :=
  let profit := (PRICE_EACH r - MSRP r)%Q in
  {| source := r;
     YEAR_MONTH := year_month (ORDER_DATE r);
     PROFIT := profit;
     PROFIT_MARGIN :=
       fmul (fdiv (Finite profit) (Finite (PRICE_EACH r))) (Finite 100) |}.

Definition load_data (csv : list RawRecord) : DataFrame := derive <$> csv.

(** ** Column names

    [read_csv] names the columns of the frame after the header of the
    file; it renames a name that is blank or repeated there, so the names
    of a frame are all different.  [data[name] = values] replaces the
    column of that name where it stands, or adds it after the last one;
    reading [data[name]] for a name the frame does not have raises
    [KeyError]. *)
Definition setitem (name : string) (columns : list string) : list string :=
  if decide (name ∈ columns) then columns else columns ++ [name].

Definition read_by_load : list string := ["ORDER_DATE"; "PRICE_EACH"; "MSRP"].

Definition derived_columns : list string :=
  ["YEAR_MONTH"; "PROFIT"; "PROFIT_MARGIN"].

(** The source columns the widgets, the filter and the aggregates read by
    name, and those only the scatter plot reads; Plotly raises
    [ValueError] for a column it is not given. *)
Definition read_by_aggregates : list string :=
  ["YEAR"; "STATUS"; "PRODUCTLINE"; "DEALSIZE"; "SALES"; "ORDER_NUMBER";
   "COUNTRY"; "CUSTOMER_NAME"].

Definition read_by_scatter : list string := ["QUANTITY_ORDERED"; "PRODUCTCODE"].

(** The columns of the frame [load_data] returns, from the names
    [read_csv] gave the columns of the file. *)
Definition load_columns (names : list string) : outcome (list string) :=
  if decide (read_by_load ⊆ names) then
    Returns (setitem "PROFIT_MARGIN"
               (setitem "PROFIT"
                  (setitem "YEAR_MONTH" (setitem "ORDER_DATE" names))))
  else Raises KeyError.

(** [to_csv(index=False)] writes one column per column of the frame, in
    their order, and no column for the index; indexing by a mask keeps
    the columns, so the export has the columns of the loaded frame.  The
    run does not get to the export when a line before it raises: when one
    misses a column, or [nlargest] refuses the column of the sales
    amounts, of type [dt].  What is returned is the columns of the
    export of a run that gets to it. *)
Definition export_columns (names : list string) (dt : dtype)
  : outcome (list string) :=
  match load_columns names with
  | Raises e => Raises e
  | Returns columns =>
      if decide (read_by_aggregates ⊆ columns) then
        match dt with
        | dtype_object => Raises TypeError
        | dtype_numeric =>
            if decide (read_by_scatter ⊆ columns) then Returns columns
            else Raises ValueError
        end
      else Raises KeyError
  end.

(** ** Sorting

    A stable sort: entries that neither must precede the other keep the
    order they came in.  [R x y] reads "[x] may come before [y]". *)
Section StableSort.
Context {A : Type} (R : relation A) `{!RelDecision R}.

Fixpoint insert_sorted (e : A) (sorted : list A) : list A :=
  match sorted with
  | [] => [e]
  | x :: rest =>
      if decide (R e x) then e :: sorted else x :: insert_sorted e rest
  end.

Definition stable_sort (l : list A) : list A := foldr insert_sorted [] l.
End StableSort.

(** ** Sidebar selections and the filtered frame *)

(** What the four [multiselect] widgets return: the chosen values of each
    dimension, as lists. *)
Record Selection : Type := {
  years : list Z;
  statuses : list string;
  product_lines : list string;
  deal_sizes : list string
}.

(** [Series.isin(values)]: the boolean mask of the cells found in
    [values]. *)
Definition isin {A} `{EqDecision A} (col values : list A) : list bool :=
  (λ x, bool_decide (x ∈ values)) <$> col.

(** [mask1 & mask2], element by element. *)
Definition mask_and (m1 m2 : list bool) : list bool := zip_with andb m1 m2.

(** [df[mask]]: the rows whose mask entry is true, in row order.  The
    masks built below have one entry per row; a shorter mask would select
    nothing past its end. *)
Fixpoint boolean_index {A} (df : list A) (mask : list bool) : list A :=
  match df, mask with
  | r :: df', b :: mask' =>
      if b then r :: boolean_index df' mask' else boolean_index df' mask'
  | _, _ => []
  end.

Definition filter_mask (df : DataFrame) (sel : Selection) : list bool :=
  mask_and
    (mask_and
       (mask_and (isin ((λ r : SaleRecord, YEAR r) <$> df) (years sel))
                 (isin ((λ r : SaleRecord, STATUS r) <$> df) (statuses sel)))
       (isin ((λ r : SaleRecord, PRODUCTLINE r) <$> df) (product_lines sel)))
    (isin ((λ r : SaleRecord, DEALSIZE r) <$> df) (deal_sizes sel)).

Definition filtered_df (df : DataFrame) (sel : Selection) : DataFrame :=
  boolean_index df (filter_mask df sel).

(** The frame the dashboard works on: the loaded file, filtered by the
    sidebar. *)
Definition view_of (csv : list RawRecord) (sel : Selection) : DataFrame :=
  filtered_df (load_data csv) sel.

(** [Series.unique()]: the distinct cells, in order of first appearance;
    the default of every widget. *)
Fixpoint unique {A} `{EqDecision A} (col : list A) : list A :=
  match col with
  | [] => []
  | x :: rest => x :: filter (λ y, y ≠ x) (unique rest)
  end.

Definition select_all (df : DataFrame) : Selection :=
  {| years := stable_sort Z.le (unique ((λ r : SaleRecord, YEAR r) <$> df));
     statuses := unique ((λ r : SaleRecord, STATUS r) <$> df);
     product_lines := unique ((λ r : SaleRecord, PRODUCTLINE r) <$> df);
     deal_sizes := unique ((λ r : SaleRecord, DEALSIZE r) <$> df) |}.

(** Deselecting one value in a widget. *)
Definition deselect {A} `{EqDecision A} (v : A) (values : list A) : list A :=
  filter (λ x, x ≠ v) values.

Definition deselect_year (v : Z) (sel : Selection) : Selection :=
  {| years := deselect v (years sel); statuses := statuses sel;
     product_lines := product_lines sel; deal_sizes := deal_sizes sel |}.

Definition deselect_status (v : string) (sel : Selection) : Selection :=
  {| years := years sel; statuses := deselect v (statuses sel);
     product_lines := product_lines sel; deal_sizes := deal_sizes sel |}.

Definition deselect_product_line (v : string) (sel : Selection) : Selection :=
  {| years := years sel; statuses := statuses sel;
     product_lines := deselect v (product_lines sel);
     deal_sizes := deal_sizes sel |}.

Definition deselect_deal_size (v : string) (sel : Selection) : Selection :=
  {| years := years sel; statuses := statuses sel;
     product_lines := product_lines sel;
     deal_sizes := deselect v (deal_sizes sel) |}.

(** ** The script's variables

    A frame is an object of the interpreter; a name of the script is
    bound to an object, and two names can be bound to the same one.
    Indexing by a mask builds a new frame and leaves the frame it indexes
    as it is; the assignment binds the name to the new frame. *)
Record Store : Type := {
  objects : gmap nat DataFrame;
  names : gmap string nat
}.

(** [filtered_df = df[mask]], the mask being that of the selection. *)
Definition exec_filter (sel : Selection) (store : Store) : option Store :=
  match names store !! "df" with
  | Some id =>
      match objects store !! id with
      | Some df =>
          let id' := fresh (dom (objects store)) in
          Some {| objects := <[id' := filtered_df df sel]> (objects store);
                  names := <["filtered_df" := id']> (names store) |}
      | None => None
      end
  | None => None
  end.

(** ** Reruns

    Streamlit runs the script again on every interaction.  [load_data]
    takes no argument and is decorated with [st.cache_data]: its first
    call reads the file and stores the frame, every later call returns
    the stored frame without reading the file. *)
Definition cached_load_data (cache : option DataFrame)
    (csv : list RawRecord) : DataFrame * option DataFrame :=
  match cache with
  | Some df => (df, cache)
  | None => (load_data csv, Some (load_data csv))
  end.

(** One run of the script, with the file as it is then and the selection
    the widgets hold: the filtered frame all the figures are made from,
    and the cache it leaves. *)
Definition rerun (cache : option DataFrame) (csv : list RawRecord)
    (sel : Selection) : DataFrame * option DataFrame :=
  (filtered_df (cached_load_data cache csv).1 sel,
   (cached_load_data cache csv).2).

(** The filtered frames of the successive runs made by one server
    process, each run with the file and the selection of its time. *)
Fixpoint session (cache : option DataFrame)
    (runs : list (list RawRecord * Selection)) : list DataFrame :=
  match runs with
  | [] => []
  | (csv, sel) :: rest =>
      (rerun cache csv sel).1 :: session (rerun cache csv sel).2 rest
  end.

(** ** Scalar aggregates

    In this part every cell of a column is present, so that [sum],
    [mean], [nunique], [groupby] and [value_counts] have nothing to skip
    or to drop; [AsRead] has them with missing cells. *)

(** [Series.sum()] of a column of amounts. *)
Definition sum_Q (col : list Q) : Q := fold_left Qplus col 0%Q.

Definition fsum (col : list float64) : float64 := fold_left fadd col (Finite 0).

(** [Series.mean()]: not-a-number cells are skipped; the sum of the rest
    is divided by their number, and a column with nothing left has mean
    not-a-number. *)
Definition mean (col : list float64) : float64 :=
  let kept := filter (λ x, isna x = false) col in
  match kept with
  | [] => NaN
  | _ => fdiv (fsum kept) (Finite (inject_Z (Z.of_nat (List.length kept))))
  end.

(** [Series.nunique()]. *)
Definition nunique {A} `{EqDecision A} (col : list A) : nat :=
  List.length (unique col).

Definition total_sales (view : DataFrame) : Q :=
  sum_Q ((λ r : SaleRecord, SALES r) <$> view).

Definition avg_order_value (view : DataFrame) : float64 :=
  mean ((λ r : SaleRecord, Finite (SALES r)) <$> view).

Definition total_orders (view : DataFrame) : nat :=
  nunique ((λ r : SaleRecord, ORDER_NUMBER r) <$> view).

Definition avg_profit_margin (view : DataFrame) : float64 :=
  mean (PROFIT_MARGIN <$> view).

(** ** Grouped aggregates *)

(** Adding [v] to the running sum of group [k] in a table of groups kept
    in ascending key order. *)
Fixpoint upsert (k : string) (v : Q) (groups : list (string * Q))
  : list (string * Q) :=
  match groups with
  | [] => [(k, v)]
  | (k', s) :: rest =>
      match String.compare k k' with
      | Lt => (k, v) :: groups
      | Eq => (k', (s + v)%Q) :: rest
      | Gt => (k', s) :: upsert k v rest
      end
  end.

(** [view.groupby(key)[val].sum().reset_index()]: one row per group, the
    groups in ascending key order. *)
Definition groupby_sum (key : SaleRecord → string) (val : SaleRecord → Q)
    (view : DataFrame) : list (string * Q) :=
  fold_left (λ groups r, upsert (key r) (val r) groups) view [].

Definition sales_trend (view : DataFrame) : list (string * Q) :=
  groupby_sum YEAR_MONTH (λ r, SALES r) view.

Definition sales_by_product (view : DataFrame) : list (string * Q) :=
  groupby_sum (λ r, PRODUCTLINE r) (λ r, SALES r) view.

Definition sales_by_country (view : DataFrame) : list (string * Q) :=
  groupby_sum (λ r, COUNTRY r) (λ r, SALES r) view.

(** Larger value first. *)
Definition larger_first {K} (a b : K * Q) : Prop := (snd b <= snd a)%Q.

Global Instance larger_first_dec {K} : RelDecision (@larger_first K).
Proof.
  intros a b. unfold larger_first.
  destruct (Qle_bool (snd b) (snd a)) eqn:E.
  - left. now apply Qle_bool_iff.
  - right. intros H. apply Qle_bool_iff in H. congruence.
Defined.

(** [Series.nlargest(n)]: the [n] largest entries, largest first, equal
    ones in the order they had. *)
Definition nlargest {K} (n : nat) (s : list (K * Q)) : list (K * Q) :=
  take n (stable_sort larger_first s).

(** The type of the column of the sales amounts of a loaded frame: its
    cells are numbers, so it is a column of numbers as soon as the file
    has a row.  Indexing by a mask and summing by group keep the type of
    the column. *)
Definition sales_dtype (df : DataFrame) : dtype :=
  match df with [] => dtype_object | _ :: _ => dtype_numeric end.

(** [nlargest] refuses a column of type [object]. *)
Definition top_customers (dt : dtype) (view : DataFrame)
  : outcome (list (string * Q)) :=
  match dt with
  | dtype_object => Raises TypeError
  | dtype_numeric =>
      Returns
        (nlargest 10
           (groupby_sum (λ r, CUSTOMER_NAME r) (λ r, SALES r) view))
  end.

(** Counting one more occurrence of [k]; a new value goes to the end. *)
Fixpoint bump (k : string) (counts : list (string * nat))
  : list (string * nat) :=
  match counts with
  | [] => [(k, 1)]
  | (k', c) :: rest =>
      if String.eqb k k' then (k', S c) :: rest else (k', c) :: bump k rest
  end.

Definition more_frequent_first (a b : string * nat) : Prop :=
  (snd b ≤ snd a)%nat.

Global Instance more_frequent_first_dec : RelDecision more_frequent_first.
Proof. intros a b. unfold more_frequent_first. apply _. Defined.

(** [Series.value_counts().reset_index()]: the distinct cells with their
    number of occurrences, the most frequent first. *)
Definition value_counts (col : list string) : list (string * nat) :=
  stable_sort more_frequent_first
    (fold_left (λ counts k, bump k counts) col []).

Definition deal_size_dist (view : DataFrame) : list (string * nat) :=
  value_counts ((λ r : SaleRecord, DEALSIZE r) <$> view).

(** ** The aggregates of one run

    What lines 69 to 162 compute from the filtered frame, in the order
    the script computes it: the four figures, the five grouped tables and
    the table of raw rows.  The call that raises ends the run. *)
Record Aggregates : Type := {
  agg_total_sales : Q;
  agg_avg_order_value : float64;
  agg_total_orders : nat;
  agg_avg_profit_margin : float64;
  agg_sales_trend : list (string * Q);
  agg_sales_by_product : list (string * Q);
  agg_sales_by_country : list (string * Q);
  agg_deal_size_dist : list (string * nat);
  agg_top_customers : list (string * Q);
  agg_raw_rows : DataFrame
}.

Definition aggregates (df : DataFrame) (sel : Selection)
  : outcome Aggregates :=
  let view := filtered_df df sel in
  match top_customers (sales_dtype df) view with
  | Raises e => Raises e
  | Returns top =>
      Returns {| agg_total_sales := total_sales view;
                 agg_avg_order_value := avg_order_value view;
                 agg_total_orders := total_orders view;
                 agg_avg_profit_margin := avg_profit_margin view;
                 agg_sales_trend := sales_trend view;
                 agg_sales_by_product := sales_by_product view;
                 agg_sales_by_country := sales_by_country view;
                 agg_deal_size_dist := deal_size_dist view;
                 agg_top_customers := top;
                 agg_raw_rows := view |}
  end.

(** ** The specification's reading of the pipeline

    The definitions of this section follow the words of the specification,
    not the script; the theorems below compare them with the script's. *)

(** A record passes a selection when each of its four cells is one of the
    values chosen for that dimension. *)
Definition selected (sel : Selection) (r : SaleRecord) : Prop :=
  YEAR r ∈ years sel ∧ STATUS r ∈ statuses sel ∧
  PRODUCTLINE r ∈ product_lines sel ∧ DEALSIZE r ∈ deal_sizes sel.

Global Instance selected_dec sel r : Decision (selected sel r).
Proof. unfold selected. apply _. Defined.

(** The Filtered View as the specification defines it. *)
Definition filtered_view (df : DataFrame) (sel : Selection) : DataFrame :=
  filter (selected sel) df.

(** The rows of a view that fall in group [k] of the column [key]. *)
Definition group_rows (key : SaleRecord → string) (k : string)
    (view : DataFrame) : DataFrame :=
  filter (λ r, key r = k) view.

(** Strictly ascending keys. *)
Definition key_lt (k1 k2 : string) : Prop := String.compare k1 k2 = Lt.

(** What a table of groups holds in all for the key [k]. *)
Fixpoint group_total (k : string) (groups : list (string * Q)) : Q :=
  match groups with
  | [] => 0%Q
  | (k', s) :: rest =>
      if decide (k' = k) then (s + group_total k rest)%Q
      else group_total k rest
  end.

(** What a table of counts holds in all for the value [k]. *)
Fixpoint count_of (k : string) (counts : list (string * nat)) : nat :=
  match counts with
  | [] => 0
  | (k', c) :: rest =>
      if decide (k' = k) then (c + count_of k rest)%nat else count_of k rest
  end.

(** The widgets at their defaults, except the year widget, which holds
    the one year [y]. *)
Definition only_year (y : Z) (df : DataFrame) : Selection :=
  {| years := [y];
     statuses := statuses (select_all df);
     product_lines := product_lines (select_all df);
     deal_sizes := deal_sizes (select_all df) |}.

(** ** Sample data *)

Definition mk_raw (num : Z) (y m d : N) (qty : Z) (price msrp sales : Q)
    (line code country size status customer : string) (yr : Z) : RawRecord :=
  {| ORDER_NUMBER := num;
     ORDER_DATE := {| year := y; month := m; day := d |};
     QUANTITY_ORDERED := qty;
     PRICE_EACH := price; MSRP := msrp; SALES := sales;
     PRODUCTLINE := line; PRODUCTCODE := code; COUNTRY := country;
     DEALSIZE := size; STATUS := status; CUSTOMER_NAME := customer;
     YEAR := yr |}.

Definition sample_row : RawRecord :=
  mk_raw 10107 2003 2 24 30 (957 # 10) 95 2871
    "Motorcycles" "S10_1678" "USA" "Small" "Shipped"
    "Land of Toys Inc." 2003.

Definition sample_csv : list RawRecord :=
  [ sample_row;
    mk_raw 10121 2003 5 7 34 (8135 # 100) 95 (27659 # 10)
      "Motorcycles" "S10_1678" "France" "Small" "Shipped"
      "Reims Collectables" 2003;
    mk_raw 10134 2004 7 1 41 (9474 # 100) 95 (388434 # 100)
      "Classic Cars" "S10_1949" "France" "Medium" "Cancelled"
      "Lyon Souveniers" 2004;
    mk_raw 10145 2003 2 3 45 (8326 # 100) 95 (37467 # 10)
      "Classic Cars" "S10_1949" "USA" "Medium" "Shipped"
      "Land of Toys Inc." 2003 ].

Definition only_2003 : Selection :=
  {| years := [2003%Z];
     statuses := ["Shipped"; "Cancelled"];
     product_lines := ["Motorcycles"; "Classic Cars"];
     deal_sizes := ["Small"; "Medium"] |}.

(** The default selection with the year widget reduced to 2003. *)
Definition year_2003_of (df : DataFrame) : Selection :=
  {| years := [2003%Z];
     statuses := statuses (select_all df);
     product_lines := product_lines (select_all df);
     deal_sizes := deal_sizes (select_all df) |}.

(** The header of the source file, in the script's column names. *)
Definition source_header : list string :=
  ["ORDER_NUMBER"; "ORDER_DATE"; "QUANTITY_ORDERED"; "PRICE_EACH"; "MSRP";
   "SALES"; "PRODUCTLINE"; "PRODUCTCODE"; "COUNTRY"; "DEALSIZE"; "STATUS";
   "CUSTOMER_NAME"; "YEAR"].

Definition row_2003 : RawRecord :=
  mk_raw 1 2003 1 1 1 100 50 100 "A" "a" "USA" "Small" "Shipped" "X" 2003.

Definition row_2004 : RawRecord :=
  mk_raw 2 2004 1 1 1 200 50 200 "A" "a" "USA" "Small" "Shipped" "Y" 2004.

Definition no_year : Selection :=
  {| years := [];
     statuses := ["Shipped"; "Cancelled"];
     product_lines := ["Motorcycles"; "Classic Cars"];
     deal_sizes := ["Small"; "Medium"] |}.

(** * The frame with the cells as [read_csv] returns them

    The definitions above give every cell the value the data model
    promises.  [read_csv] promises less: a cell the file leaves empty is
    read as missing, and an amount is a binary64 number, rounded by every
    operation on it.  The definitions of this part follow the same lines
    of the script with the cells as they are read: a categorical or
    integer cell is [None] where it is missing, an amount is a [float]
    (a missing amount is not-a-number), and the sums are those NumPy
    computes. *)
Module AsRead.

(** ** Float cells *)

(** [Series.isna()] on a float cell. *)
Definition isna (x : float) : bool :=
  match Prim2SF x with S754_nan => true | _ => false end.

Definition is_zero (x : float) : bool :=
  match Prim2SF x with S754_zero _ => true | _ => false end.

(** Neither an infinity nor not-a-number. *)
Definition is_finite (x : float) : bool :=
  match Prim2SF x with
  | S754_zero _ | S754_finite _ _ _ => true
  | _ => false
  end.

(** The real number a finite cell stands for; 0 for the cells that stand
    for none. *)
Definition exact (x : float) : Q :=
  match Prim2SF x with
  | S754_finite s m e => (inject_Z (cond_Zopp s (Z.pos m)) * 2 ^ e)%Q
  | _ => 0%Q
  end.

(** An amount that is present and not negative, or a missing one. *)
Definition nonneg_or_missing (x : float) : bool :=
  match Prim2SF x with
  | S754_zero _ | S754_finite false _ _ | S754_nan => true
  | _ => false
  end.

(** ** Records *)

(** One data row of the file after [read_csv] and [to_datetime]. *)
Record CsvRecord : Type := {
  c_ORDER_NUMBER : option Z;
  c_ORDER_DATE : option date;
  c_QUANTITY_ORDERED : option Z;
  c_PRICE_EACH : float;
  c_MSRP : float;
  c_SALES : float;
  c_PRODUCTLINE : option string;
  c_PRODUCTCODE : option string;
  c_COUNTRY : option string;
  c_DEALSIZE : option string;
  c_STATUS : option string;
  c_CUSTOMER_NAME : option string;
  c_YEAR : option Z
}.

(** A row of the loaded frame: the cells read and the derived columns. *)
Record LoadedRecord : Type := {
  cells :> CsvRecord;
  c_YEAR_MONTH : string;
  c_PROFIT : float;
  c_PROFIT_MARGIN : float
}.

(** Lines 14 to 21 on one row, in binary64 arithmetic; the period of a
    missing date is written ["NaT"]. *)
Definition derive (r : CsvRecord) : LoadedRecord :=
  let profit := (c_PRICE_EACH r - c_MSRP r)%float in
  {| cells := r;
     c_YEAR_MONTH :=
       match c_ORDER_DATE r with Some d => year_month d | None => "NaT" end;
     c_PROFIT := profit;
     c_PROFIT_MARGIN := (profit / c_PRICE_EACH r * 100)%float |}.

Definition load_data (csv : list CsvRecord) : list LoadedRecord :=
  derive <$> csv.

(** The type of the column of the sales amounts: a column of numbers as
    soon as the file has a row. *)
Definition sales_dtype (df : list LoadedRecord) : dtype :=
  match df with [] => dtype_object | _ :: _ => dtype_numeric end.

(** ** The filtered frame

    The options of a widget are the cells [unique()] finds in the column,
    the missing cell among them when the column has one, and [isin]
    matches a missing cell against a missing value. *)
Record Selection : Type := {
  years : list (option Z);
  statuses : list (option string);
  product_lines : list (option string);
  deal_sizes : list (option string)
}.

Definition filter_mask (df : list LoadedRecord) (sel : Selection)
  : list bool :=
  mask_and
    (mask_and
       (mask_and (isin ((λ r : LoadedRecord, c_YEAR r) <$> df) (years sel))
                 (isin ((λ r : LoadedRecord, c_STATUS r) <$> df)
                       (statuses sel)))
       (isin ((λ r : LoadedRecord, c_PRODUCTLINE r) <$> df)
             (product_lines sel)))
    (isin ((λ r : LoadedRecord, c_DEALSIZE r) <$> df) (deal_sizes sel)).

Definition filtered_df (df : list LoadedRecord) (sel : Selection)
  : list LoadedRecord :=
  boolean_index df (filter_mask df sel).

Definition deselect_year (v : option Z) (sel : Selection) : Selection :=
  {| years := deselect v (years sel); statuses := statuses sel;
     product_lines := product_lines sel; deal_sizes := deal_sizes sel |}.

Definition deselect_status (v : option string) (sel : Selection)
  : Selection :=
  {| years := years sel; statuses := deselect v (statuses sel);
     product_lines := product_lines sel; deal_sizes := deal_sizes sel |}.

Definition deselect_product_line (v : option string) (sel : Selection)
  : Selection :=
  {| years := years sel; statuses := statuses sel;
     product_lines := deselect v (product_lines sel);
     deal_sizes := deal_sizes sel |}.

Definition deselect_deal_size (v : option string) (sel : Selection)
  : Selection :=
  {| years := years sel; statuses := statuses sel;
     product_lines := product_lines sel;
     deal_sizes := deselect v (deal_sizes sel) |}.

(** ** Sums as NumPy computes them

    [ndarray.sum()] of a float column adds the result of the pairwise
    summation routine to a zero.  The routine adds up to seven cells one
    after the other; from eight cells on it keeps eight running sums, one
    per position in a block of eight, combines them as a balanced tree and
    adds the cells past the last full block to the result; a column of
    more than 128 cells is cut in two at a multiple of eight and the sums
    of the halves are added. *)
Definition add_cells (acc : float) (cells : list float) : float :=
  fold_left PrimFloat.add cells acc.

(** The eight running sums after [blocks] more blocks of eight, and the
    cells not yet read. *)
Fixpoint add_blocks (blocks : nat) (r cells : list float)
  : list float * list float :=
  match blocks with
  | O => (r, cells)
  | S b =>
      add_blocks b (zip_with PrimFloat.add r (take 8 cells)) (drop 8 cells)
  end.

(** The eight running sums combined; there are always eight. *)
Definition combine8 (r : list float) : float :=
  match r with
  | [r0; r1; r2; r3; r4; r5; r6; r7] =>
      (((r0 + r1) + (r2 + r3)) + ((r4 + r5) + (r6 + r7)))%float
  | _ => add_cells 0%float r
  end.

Definition sum_unrolled (a : list float) : float :=
  let '(r, rest) :=
    add_blocks (List.length a / 8 - 1) (take 8 a) (drop 8 a) in
  add_cells (combine8 r) rest.

(** [depth] bounds the number of times the column is cut in two; the
    length of the column is always enough. *)
Fixpoint pairwise_sum (depth : nat) (a : list float) : float :=
  let n := List.length a in
  if decide (n < 8)%nat then add_cells 0%float a
  else if decide (n ≤ 128)%nat then sum_unrolled a
  else
    match depth with
    | O => sum_unrolled a
    | S d =>
        let n2 := (n / 2 - (n / 2) mod 8)%nat in
        (pairwise_sum d (take n2 a) + pairwise_sum d (drop n2 a))%float
    end.

Definition np_sum (a : list float) : float :=
  (0 + pairwise_sum (List.length a) a)%float.

(** ** Scalar aggregates *)

(** [Series.sum()]: a missing cell counts as zero. *)
Definition nansum (col : list float) : float :=
  np_sum ((λ x, if isna x then 0%float else x) <$> col).

Definition count (col : list float) : nat :=
  List.length (filter (λ x, isna x = false) col).

Definition float_of_nat (n : nat) : float :=
  of_uint63 (Uint63.of_Z (Z.of_nat n)).

(** [Series.mean()]: the sum with the missing cells counted as zero,
    divided by the number of cells that are present; not-a-number when
    none is. *)
Definition nanmean (col : list float) : float :=
  match count col with
  | O => nan
  | S _ => (nansum col / float_of_nat (count col))%float
  end.

Definition total_sales (view : list LoadedRecord) : float :=
  nansum ((λ r : LoadedRecord, c_SALES r) <$> view).

Definition avg_order_value (view : list LoadedRecord) : float :=
  nanmean ((λ r : LoadedRecord, c_SALES r) <$> view).

Definition avg_profit_margin (view : list LoadedRecord) : float :=
  nanmean (c_PROFIT_MARGIN <$> view).

(** [Series.nunique()] leaves the missing cells out. *)
Definition total_orders (view : list LoadedRecord) : nat :=
  nunique (omap (λ r : LoadedRecord, c_ORDER_NUMBER r) view).

(** [Series.value_counts()] leaves the missing cells out. *)
Definition deal_size_dist (view : list LoadedRecord) : list (string * nat) :=
  value_counts (omap (λ r : LoadedRecord, c_DEALSIZE r) view).

(** ** The export and its reload

    [to_csv(index=False)] writes the names of the columns and one line
    per row, a field per column; a missing cell is written as an empty
    field and a text cell as it is.  [read_csv] reads a field that is one
    of its markers for a missing value as a missing cell.  How a number
    or a date is written as text and read back from it is pandas' own; a
    [TextFormat] stands for it. *)
Definition na_values : list string :=
  [""; "#N/A"; "#N/A N/A"; "#NA"; "-1.#IND"; "-1.#QNAN"; "-NaN"; "-nan";
   "1.#IND"; "1.#QNAN"; "<NA>"; "N/A"; "NA"; "NULL"; "NaN"; "None"; "n/a";
   "nan"; "null"].

Record TextFormat : Type := {
  int_text : Z → string;
  float_text : float → string;
  date_text : date → string;
  parse_int : string → option Z;
  parse_float : string → option float;
  parse_date : string → option date
}.

Definition write_cell {A} (text : A → string) (c : option A) : string :=
  match c with Some v => text v | None => "" end.

(** [None] when the field is neither a marker of a missing value nor the
    text of a value of the column's type. *)
Definition read_cell {A} (parse : string → option A) (field : string)
  : option (option A) :=
  if decide (field ∈ na_values) then Some None else Some <$> parse field.

Definition write_float (fmt : TextFormat) (x : float) : string :=
  if isna x then "" else float_text fmt x.

Definition read_float (fmt : TextFormat) (field : string) : option float :=
  if decide (field ∈ na_values) then Some nan else parse_float fmt field.

Record CsvFile : Type := {
  header : list string;
  lines : list (list string)
}.

Definition to_csv_line (fmt : TextFormat) (r : LoadedRecord) : list string :=
  [ write_cell (int_text fmt) (c_ORDER_NUMBER r);
    write_cell (date_text fmt) (c_ORDER_DATE r);
    write_cell (int_text fmt) (c_QUANTITY_ORDERED r);
    write_float fmt (c_PRICE_EACH r);
    write_float fmt (c_MSRP r);
    write_float fmt (c_SALES r);
    write_cell id (c_PRODUCTLINE r);
    write_cell id (c_PRODUCTCODE r);
    write_cell id (c_COUNTRY r);
    write_cell id (c_DEALSIZE r);
    write_cell id (c_STATUS r);
    write_cell id (c_CUSTOMER_NAME r);
    write_cell (int_text fmt) (c_YEAR r);
    c_YEAR_MONTH r;
    write_float fmt (c_PROFIT r);
    write_float fmt (c_PROFIT_MARGIN r) ].

(** [filtered_df.to_csv(index=False)]. *)
Definition to_csv (fmt : TextFormat) (view : list LoadedRecord) : CsvFile :=
  {| header := source_header ++ derived_columns;
     lines := to_csv_line fmt <$> view |}.

(** The source cells [read_csv] and [to_datetime] read from a line of
    the export.  The line has the three derived columns too; [load_data]
    assigns them anew, so what is read from them is not kept. *)
Definition read_line (fmt : TextFormat) (fields : list string)
  : option CsvRecord :=
  match fields with
  | [num; date; qty; price; msrp; sales; line; code; country; size; status;
     customer; yr; _; _; _] =>
      num ← read_cell (parse_int fmt) num;
      date ← read_cell (parse_date fmt) date;
      qty ← read_cell (parse_int fmt) qty;
      price ← read_float fmt price;
      msrp ← read_float fmt msrp;
      sales ← read_float fmt sales;
      line ← read_cell Some line;
      code ← read_cell Some code;
      country ← read_cell Some country;
      size ← read_cell Some size;
      status ← read_cell Some status;
      customer ← read_cell Some customer;
      yr ← read_cell (parse_int fmt) yr;
      Some {| c_ORDER_NUMBER := num; c_ORDER_DATE := date;
              c_QUANTITY_ORDERED := qty; c_PRICE_EACH := price;
              c_MSRP := msrp; c_SALES := sales; c_PRODUCTLINE := line;
              c_PRODUCTCODE := code; c_COUNTRY := country;
              c_DEALSIZE := size; c_STATUS := status;
              c_CUSTOMER_NAME := customer; c_YEAR := yr |}
  | _ => None
  end.

(** [load_data] on the exported file. *)
Definition reload (fmt : TextFormat) (file : CsvFile)
  : option (list LoadedRecord) :=
  load_data <$> mapM (read_line fmt) (lines file).

(** ** The specification's reading *)

Definition selected (sel : Selection) (r : LoadedRecord) : Prop :=
  c_YEAR r ∈ years sel ∧ c_STATUS r ∈ statuses sel ∧
  c_PRODUCTLINE r ∈ product_lines sel ∧ c_DEALSIZE r ∈ deal_sizes sel.

Global Instance selected_as_read_dec sel r : Decision (selected sel r).
Proof. unfold selected. apply _. Defined.

(** The sum of the sales amounts of a view as real numbers, without
    rounding. *)
Definition exact_total_sales (view : list LoadedRecord) : Q :=
  sum_Q ((λ r : LoadedRecord, exact (c_SALES r)) <$> view).

Definition zero_price (r : LoadedRecord) : bool := is_zero (c_PRICE_EACH r).

(** The two policies the specification allows for the margin of a row
    whose price is zero: leave the row out of the average, or count it
    with a margin of zero. *)
Definition mean_excluding_zero_price (view : list LoadedRecord) : float :=
  nanmean (c_PROFIT_MARGIN <$> filter (λ r, zero_price r = false) view).

Definition mean_zero_contribution (view : list LoadedRecord) : float :=
  nanmean ((λ r, if zero_price r then 0%float else c_PROFIT_MARGIN r)
             <$> view).

Definition zero_price_handled (view : list LoadedRecord) : Prop :=
  avg_profit_margin view = mean_excluding_zero_price view ∨
  avg_profit_margin view = mean_zero_contribution view.

(** The average margin with the margin of every zero-price row taken as
    missing. *)
Definition mean_zero_price_missing (view : list LoadedRecord) : float :=
  nanmean ((λ r, if zero_price r then nan else c_PROFIT_MARGIN r) <$> view).

(** The margin of a row whose price is the zero of sign [s], from its
    cost basis. *)
Definition zero_price_margin (s : bool) (msrp : float) : spec_float :=
  match Prim2SF msrp with
  | S754_zero _ | S754_nan => S754_nan
  | S754_finite sm _ _ | S754_infinity sm => S754_infinity (xorb (negb sm) s)
  end.

(** Every value present in the column of a widget is selected in it. *)
Definition all_selected (df : list LoadedRecord) (sel : Selection) : Prop :=
  (λ r : LoadedRecord, c_YEAR r) <$> df ⊆ years sel ∧
  (λ r : LoadedRecord, c_STATUS r) <$> df ⊆ statuses sel ∧
  (λ r : LoadedRecord, c_PRODUCTLINE r) <$> df ⊆ product_lines sel ∧
  (λ r : LoadedRecord, c_DEALSIZE r) <$> df ⊆ deal_sizes sel.

(** The source cells of a row are read back from the line the export
    writes for it. *)
Definition reads_back (fmt : TextFormat) (raw : CsvRecord) : Prop :=
  read_line fmt (to_csv_line fmt (derive raw)) = Some raw.

(** ** Sample data *)

Definition mk_row (num : Z) (y m d : N) (price msrp sales : float)
    (size : option string) (yr : Z) : CsvRecord :=
  {| c_ORDER_NUMBER := Some num;
     c_ORDER_DATE := Some {| year := y; month := m; day := d |};
     c_QUANTITY_ORDERED := Some 1%Z;
     c_PRICE_EACH := price; c_MSRP := msrp; c_SALES := sales;
     c_PRODUCTLINE := Some "Planes"; c_PRODUCTCODE := Some "S18_1662";
     c_COUNTRY := Some "Spain"; c_DEALSIZE := size;
     c_STATUS := Some "Shipped";
     c_CUSTOMER_NAME := Some "Euro Shopping Channel";
     c_YEAR := Some yr |}.

Definition all_of (ys : list Z) : Selection :=
  {| years := Some <$> ys;
     statuses := [Some "Shipped"];
     product_lines := [Some "Planes"];
     deal_sizes := [Some "Small"; None] |}.

(** A file with one row given away for free: its unit price is zero while
    its cost basis is not. *)
Definition free_sample_csv : list CsvRecord :=
  [ mk_row 10200 2004 1 15 0 50 0 (Some "Small") 2004;
    mk_row 10201 2004 1 16 100 50 2000 (Some "Small") 2004 ].

(** The same with the zero price written with a minus sign. *)
Definition minus_zero_csv : list CsvRecord :=
  [ mk_row 10200 2004 1 15 (-0) 50 0 (Some "Small") 2004 ].

(** Eight orders, the last of them worth nothing and alone in its year. *)
Definition order (num : Z) (sales : float) (yr : Z) : CsvRecord :=
  mk_row num 2003 6 1 10 5 sales (Some "Small") yr.

Definition eight_orders_csv : list CsvRecord :=
  [ order 1 77.1 2003; order 2 54.0 2003; order 3 86.0 2003;
    order 4 23.3 2003; order 5 51.4 2003; order 6 95.2 2003;
    order 7 57.8 2003; order 8 0 2004 ].

(** Three orders, the deal size of the second left empty in the file. *)
Definition missing_deal_size_csv : list CsvRecord :=
  [ mk_row 1 2003 6 1 10 5 100 (Some "Small") 2003;
    mk_row 2 2003 6 2 10 5 200 None 2003;
    mk_row 3 2003 6 3 10 5 300 (Some "Small") 2003 ].

(** The texts pandas writes for whole numbers, for amounts that are whole
    numbers or infinite, and for dates without a time of day. *)
Fixpoint decimal_digits (fuel : nat) (n : N) : string :=
  match fuel with
  | O => ""
  | S fuel' =>
      if (n <? 10)%N then String (digit n) ""
      else decimal_digits fuel' (n / 10) ++ String (digit n) ""
  end.

Definition decimal (z : Z) : string :=
  match z with
  | Zneg p => "-" ++ decimal_digits (Pos.size_nat p) (Npos p)
  | _ => decimal_digits (S (N.size_nat (Z.to_N z))) (Z.to_N z)
  end.

Definition digit_value (c : ascii) : option N :=
  let n := N_of_ascii c in
  if ((48 <=? n) && (n <=? 57))%N then Some (n - 48)%N else None.

Fixpoint parse_digits (acc : N) (s : string) : option N :=
  match s with
  | "" => Some acc
  | String c s' => d ← digit_value c; parse_digits (10 * acc + d) s'
  end.

Definition parse_decimal (s : string) : option Z :=
  match s with
  | "" => None
  | String "-" s' => (λ n, (- Z.of_N n)%Z) <$> parse_digits 0 s'
  | _ => Z.of_N <$> parse_digits 0 s
  end.

Definition whole_amount_text (x : float) : string :=
  match Prim2SF x with
  | S754_zero s => if s then "-0.0" else "0.0"
  | S754_infinity s => if s then "-inf" else "inf"
  | S754_nan => ""
  | S754_finite s m e =>
      (if s then "-" else "") ++
      decimal (Z.shiftl (Z.pos m) e) ++ ".0"
  end.

Definition parse_whole_amount (s : string) : option float :=
  if decide (s = "inf") then Some infinity
  else if decide (s = "-inf") then Some neg_infinity
  else
    match String.index 0 "." s with
    | Some i =>
        match parse_decimal (String.substring 0 i s) with
        | Some z =>
            if decide (String.substring i 2 s = ".0") then
              Some (if (z <? 0)%Z then (- float_of_nat (Z.abs_nat z))%float
                    else float_of_nat (Z.abs_nat z))
            else None
        | None => None
        end
    | None => None
    end.

Definition iso_date_text (d : date) : string :=
  zfill 4 (year d) ++ "-" ++ zfill 2 (month d) ++ "-" ++ zfill 2 (day d).

Definition parse_iso_date (s : string) : option date :=
  y ← parse_digits 0 (String.substring 0 4 s);
  m ← parse_digits 0 (String.substring 5 2 s);
  d ← parse_digits 0 (String.substring 8 2 s);
  Some {| year := y; month := m; day := d |}.

Definition whole_amounts : TextFormat :=
  {| int_text := decimal; float_text := whole_amount_text;
     date_text := iso_date_text; parse_int := parse_decimal;
     parse_float := parse_whole_amount; parse_date := parse_iso_date |}.

End AsRead.

(** * Properties *)

(** ** The pipeline on the sample file *)

Example year_month_sample :
  year_month {| year := 2003; month := 2; day := 24 |} = "2003-02".
Proof. reflexivity. Qed.

Example filtered_df_sample :
  (λ r : SaleRecord, ORDER_NUMBER r) <$>
    filtered_df (load_data sample_csv) only_2003
  = [10107; 10121; 10145]%Z.
Proof. reflexivity. Qed.

Example sales_trend_sample :
  prod_map id Qred <$> sales_trend (load_data sample_csv) =
  [("2003-02", 66177 # 10); ("2003-05", 27659 # 10); ("2004-07", 194217 # 50)]%Q.
Proof. vm_compute. reflexivity. Qed.

Example top_customers_sample :
  top_customers (sales_dtype (load_data sample_csv)) (load_data sample_csv) =
  Returns [("Land of Toys Inc.", 2871 + (37467 # 10));
           ("Lyon Souveniers", 388434 # 100);
           ("Reims Collectables", 27659 # 10)]%Q.
Proof. reflexivity. Qed.

Example deal_size_dist_sample :
  deal_size_dist (load_data sample_csv) = [("Small", 2%nat); ("Medium", 2%nat)].
Proof. vm_compute. reflexivity. Qed.

(** ** The stable sort *)

Section StableSortCorrect.
Context {A : Type} (R : relation A) `{!RelDecision R}.

Lemma insert_sorted_Permutation (e : A) (l : list A) :
  insert_sorted R e l ≡ₚ e :: l.
Proof.
  induction l as [|x l IH]; simpl; [reflexivity|].
  destruct (decide (R e x)); [reflexivity|].
  rewrite IH. apply Permutation_swap.
Qed.

Lemma stable_sort_Permutation (l : list A) : stable_sort R l ≡ₚ l.
Proof.
  induction l as [|x l IH]; simpl; [reflexivity|].
  now rewrite insert_sorted_Permutation, IH.
Qed.

Lemma insert_sorted_sorted `{!Total R, !Transitive R} (e : A) (l : list A) :
  StronglySorted R l → StronglySorted R (insert_sorted R e l).
Proof.
  induction 1 as [|x l Hl IH Hx]; simpl; [repeat constructor|].
  destruct (decide (R e x)) as [Hex|Hex].
  - constructor; [now constructor|].
    constructor; [exact Hex|].
    eapply Forall_impl; [exact Hx|]. intros y Hy. now transitivity x.
  - constructor; [exact IH|].
    rewrite insert_sorted_Permutation. constructor; [|exact Hx].
    destruct (total R e x); [contradiction|assumption].
Qed.

Lemma stable_sort_sorted `{!Total R, !Transitive R} (l : list A) :
  StronglySorted R (stable_sort R l).
Proof.
  induction l as [|x l IH]; simpl; [constructor|].
  now apply insert_sorted_sorted.
Qed.

(** Entries that are interchangeable for the order keep their place:
    sorting a list already in order changes nothing. *)
Lemma stable_sort_sorted_id (l : list A) :
  StronglySorted R l → stable_sort R l = l.
Proof.
  induction 1 as [|x l Hl IH Hx]; simpl; [reflexivity|].
  rewrite IH. destruct Hx as [|y l Hy _]; simpl; [reflexivity|].
  now rewrite decide_True.
Qed.
End StableSortCorrect.

(** ** Filtering *)

Section Filtering.
Implicit Types (df : DataFrame) (sel : Selection) (r : SaleRecord).

Lemma boolean_index_sublist {A} (l : list A) (mask : list bool) :
  boolean_index l mask `sublist_of` l.
Proof.
  revert mask. induction l as [|x l IH]; intros [|[] mask]; simpl;
    try apply sublist_nil_l.
  - apply sublist_skip, IH.
  - apply sublist_cons, IH.
Qed.

(** The mask entry of a row is the conjunction of its four membership
    tests. *)
Lemma filter_mask_cons r df sel :
  filter_mask (r :: df) sel = bool_decide (selected sel r) :: filter_mask df sel.
Proof.
  unfold filter_mask, mask_and, isin, selected. simpl. f_equal.
  repeat case_bool_decide; simpl; try reflexivity; tauto.
Qed.

Lemma filter_mask_length df sel : List.length (filter_mask df sel) = List.length df.
Proof.
  induction df as [|r df IH]; [reflexivity|].
  rewrite filter_mask_cons. simpl. now rewrite IH.
Qed.

Lemma filtered_df_cons r df sel :
  filtered_df (r :: df) sel =
  if decide (selected sel r) then r :: filtered_df df sel else filtered_df df sel.
Proof.
  unfold filtered_df. rewrite filter_mask_cons. simpl.
  destruct (decide (selected sel r)) as [Hs|Hs];
    [rewrite bool_decide_eq_true_2 | rewrite bool_decide_eq_false_2];
    auto.
Qed.

Lemma filtered_df_filter df sel : filtered_df df sel = filtered_view df sel.
Proof.
  unfold filtered_view. induction df as [|r df IH]; [reflexivity|].
  rewrite filtered_df_cons, filter_cons, IH. reflexivity.
Qed.

Lemma elem_of_filtered_df r df sel :
  r ∈ filtered_df df sel ↔ r ∈ df ∧ selected sel r.
Proof.
  rewrite filtered_df_filter. unfold filtered_view.
  rewrite list_elem_of_filter. tauto.
Qed.

Lemma filtered_df_nil_unselected df sel :
  (∀ r, r ∈ df → ¬ selected sel r) → filtered_df df sel = [].
Proof.
  intros H. induction df as [|r df IH]; [reflexivity|].
  rewrite filtered_df_cons. destruct (decide (selected sel r)) as [Hs|_].
  - exfalso. apply (H r); [left|exact Hs].
  - apply IH. intros r' Hr'. apply H. now right.
Qed.

(** A selection that chooses no more than another keeps no more rows. *)
Lemma filtered_df_narrow df sel sel' :
  (∀ r, selected sel' r → selected sel r) →
  filtered_df df sel' `sublist_of` filtered_df df sel.
Proof.
  intros H. induction df as [|r df IH]; [reflexivity|].
  rewrite !filtered_df_cons.
  destruct (decide (selected sel' r)) as [Hs'|_].
  - rewrite decide_True by auto. now apply sublist_skip.
  - destruct (decide (selected sel r)); [now apply sublist_cons | exact IH].
Qed.

Lemma elem_of_unique {A} `{EqDecision A} (col : list A) (x : A) :
  x ∈ unique col ↔ x ∈ col.
Proof.
  induction col as [|y col IH]; simpl; [reflexivity|].
  rewrite !elem_of_cons, list_elem_of_filter, IH.
  destruct (decide (x = y)); tauto.
Qed.

Lemma NoDup_unique {A} `{EqDecision A} (col : list A) : NoDup (unique col).
Proof.
  induction col as [|y col IH]; simpl; constructor.
  - rewrite list_elem_of_filter. tauto.
  - now apply NoDup_filter.
Qed.

Lemma elem_of_deselect {A} `{EqDecision A} (v x : A) (values : list A) :
  x ∈ deselect v values ↔ x ∈ values ∧ x ≠ v.
Proof. unfold deselect. rewrite list_elem_of_filter. tauto. Qed.

Lemma deselect_narrows sel :
  (∀ v r, selected (deselect_year v sel) r → selected sel r) ∧
  (∀ v r, selected (deselect_status v sel) r → selected sel r) ∧
  (∀ v r, selected (deselect_product_line v sel) r → selected sel r) ∧
  (∀ v r, selected (deselect_deal_size v sel) r → selected sel r).
Proof.
  split; [|split; [|split]]; intros v r (Hy & Hs & Hp & Hd); simpl in *;
    rewrite ?elem_of_deselect in *; unfold selected; tauto.
Qed.

(** C1.  The filtered frame holds exactly the records whose year, status,
    product line and deal size are each among the values selected for
    that dimension, as many times and in the order they occur in the
    loaded frame; a dimension with nothing selected leaves no record. *)
Theorem filtered_df_exactly_selected df sel :
  filtered_df df sel = filtered_view df sel ∧
  (∀ r, r ∈ filtered_df df sel ↔
        r ∈ df ∧ YEAR r ∈ years sel ∧ STATUS r ∈ statuses sel ∧
        PRODUCTLINE r ∈ product_lines sel ∧ DEALSIZE r ∈ deal_sizes sel) ∧
  (years sel = [] ∨ statuses sel = [] ∨ product_lines sel = [] ∨
   deal_sizes sel = [] → filtered_df df sel = []).
Proof.
  split; [apply filtered_df_filter|]. split.
  - intros r. apply elem_of_filtered_df.
  - intros Hempty. apply filtered_df_nil_unselected.
    intros r _ (Hy & Hs & Hp & Hd).
    destruct Hempty as [E|[E|[E|E]]]; rewrite E in *;
      eapply not_elem_of_nil; eassumption.
Qed.

(** Filtering a filtered frame again by the same selection changes
    nothing. *)
Theorem filtered_df_idempotent df sel :
  filtered_df (filtered_df df sel) sel = filtered_df df sel.
Proof.
  rewrite !filtered_df_filter. unfold filtered_view.
  rewrite list_filter_filter. apply list_filter_iff. tauto.
Qed.

Lemma filter_Forall_id {A} (P : A → Prop) `{∀ x, Decision (P x)}
    (l : list A) :
  Forall P l → filter P l = l.
Proof.
  induction 1 as [|x l Hx _ IH]; [reflexivity|].
  rewrite filter_cons_True by exact Hx. now rewrite IH.
Qed.

(** With every widget at its default, all that is present, the filtered
    frame is the loaded frame. *)
Theorem filtered_df_select_all df : filtered_df df (select_all df) = df.
Proof.
  rewrite filtered_df_filter. unfold filtered_view.
  apply filter_Forall_id, Forall_forall.
  intros r Hr. unfold selected, select_all. simpl.
  rewrite stable_sort_Permutation, !elem_of_unique.
  repeat split; apply list_elem_of_fmap; now exists r.
Qed.

(** C10.  The filtered frame is a subsequence of the loaded frame: it
    holds the rows of the loaded frame that match the selection, all of
    them and no other, each as it is in the loaded frame and in the same
    relative order.  The statement that computes it binds [filtered_df]
    to a frame that did not exist before, other than the one bound to
    [df]; [df] stays bound to its frame, and that frame and every other
    frame and name of the script are as they were. *)
Theorem filtered_df_subsequence df sel :
  filtered_df df sel = filter (selected sel) df ∧
  filtered_df df sel `sublist_of` df ∧
  (∀ r, r ∈ filtered_df df sel ↔ r ∈ df ∧ selected sel r) ∧
  (∀ (store : Store) (id : nat),
     names store !! "df" = Some id → objects store !! id = Some df →
     ∃ store' id',
       exec_filter sel store = Some store' ∧
       names store' !! "filtered_df" = Some id' ∧
       objects store' !! id' = Some (filtered_df df sel) ∧
       id' ≠ id ∧ objects store !! id' = None ∧
       names store' !! "df" = Some id ∧
       objects store' !! id = Some df ∧
       (∀ i, i ≠ id' → objects store' !! i = objects store !! i) ∧
       (∀ name, name ≠ "filtered_df" →
                names store' !! name = names store !! name)).
Proof.
  split; [apply filtered_df_filter|].
  split; [apply boolean_index_sublist|].
  split; [intros r; apply elem_of_filtered_df|].
  intros store id Hname Hobj. unfold exec_filter. rewrite Hname, Hobj.
  set (id' := fresh (dom (objects store))).
  assert (Hnew : objects store !! id' = None).
  { apply not_elem_of_dom. apply is_fresh. }
  assert (Hne : id' ≠ id) by (intros Heq; rewrite Heq in Hnew; congruence).
  eexists _, id'. split; [reflexivity|]. simpl.
  split; [apply lookup_insert_eq|].
  split; [apply lookup_insert_eq|].
  split; [exact Hne|]. split; [exact Hnew|].
  split; [rewrite lookup_insert_ne by discriminate; exact Hname|].
  split; [rewrite lookup_insert_ne by exact Hne; exact Hobj|].
  split.
  - intros i Hi. now rewrite lookup_insert_ne.
  - intros name Hn. now rewrite lookup_insert_ne.
Qed.
End Filtering.

(** ** Sums of amounts *)

Section Sums.
Local Open Scope Q_scope.

Lemma fold_left_Qplus_acc (l : list Q) (a : Q) :
  fold_left Qplus l a == a + fold_left Qplus l 0.
Proof.
  revert a. induction l as [|x l IH]; intros a; simpl.
  - now rewrite Qplus_0_r.
  - rewrite (IH (a + x)), (IH (0 + x)). ring.
Qed.

Lemma sum_Q_cons (x : Q) (l : list Q) : sum_Q (x :: l) == x + sum_Q l.
Proof.
  unfold sum_Q. simpl. rewrite fold_left_Qplus_acc. ring.
Qed.

Lemma sum_Q_app (l1 l2 : list Q) : sum_Q (l1 ++ l2) == sum_Q l1 + sum_Q l2.
Proof.
  induction l1 as [|x l1 IH]; simpl.
  - unfold sum_Q at 2. simpl. ring.
  - rewrite !sum_Q_cons, IH. ring.
Qed.

Lemma sum_Q_nonneg (l : list Q) : Forall (λ x, 0 <= x) l → 0 <= sum_Q l.
Proof.
  induction 1 as [|x l Hx _ IH]; [apply Qle_refl|].
  rewrite sum_Q_cons. rewrite <- (Qplus_0_l 0).
  now apply Qplus_le_compat.
Qed.

(** Dropping entries from a column of non-negative amounts cannot raise
    its sum. *)
Lemma sum_Q_sublist (l1 l2 : list Q) :
  l1 `sublist_of` l2 → Forall (λ x, 0 <= x) l2 → sum_Q l1 <= sum_Q l2.
Proof.
  induction 1 as [|x l1 l2 _ IH|x l1 l2 Hsub IH]; intros Hpos.
  - apply Qle_refl.
  - rewrite !sum_Q_cons. apply Qplus_le_compat; [apply Qle_refl|].
    apply IH. now inversion Hpos.
  - rewrite sum_Q_cons. inversion Hpos as [|? ? Hx Hl]; subst.
    rewrite <- (Qplus_0_l (sum_Q l1)).
    apply Qplus_le_compat; [exact Hx | now apply IH].
Qed.

End Sums.

(** ** Loading and the derived columns *)

Section Loading.
Local Open Scope Q_scope.

Lemma elem_of_load_data (csv : list RawRecord) (r : SaleRecord) :
  r ∈ load_data csv ↔ ∃ raw, r = derive raw ∧ raw ∈ csv.
Proof. unfold load_data. apply list_elem_of_fmap. Qed.

Lemma load_data_length (csv : list RawRecord) :
  List.length (load_data csv) = List.length csv.
Proof. unfold load_data. apply length_fmap. Qed.

Lemma derive_margin_nonzero (raw : RawRecord) :
  ¬ PRICE_EACH raw == 0 →
  PROFIT_MARGIN (derive raw) =
  Finite ((PRICE_EACH raw - MSRP raw) / PRICE_EACH raw * 100).
Proof.
  intros Hprice. simpl.
  destruct (Qeq_bool (PRICE_EACH raw) 0) eqn:E; [|reflexivity].
  apply Qeq_bool_iff in E. contradiction.
Qed.

(** C2.  Every row of the loaded frame has its profit equal to the unit
    price minus the cost basis, and, when the unit price is not zero, its
    profit margin equal to the profit divided by the unit price, times
    100. *)
Theorem load_data_profit_margin (csv : list RawRecord) (r : SaleRecord) :
  r ∈ load_data csv →
  PROFIT r = PRICE_EACH r - MSRP r ∧
  (¬ PRICE_EACH r == 0 →
   PROFIT_MARGIN r = Finite (PROFIT r / PRICE_EACH r * 100)).
Proof.
  intros Hr. apply elem_of_load_data in Hr as (raw & -> & _).
  split; [reflexivity|]. intros Hprice.
  now apply derive_margin_nonzero.
Qed.

Lemma load_data_profit_margin_sample :
  PROFIT (derive sample_row) = PRICE_EACH sample_row - MSRP sample_row ∧
  PROFIT_MARGIN (derive sample_row) =
  Finite (PROFIT (derive sample_row) / PRICE_EACH sample_row * 100).
Proof.
  destruct (load_data_profit_margin sample_csv (derive sample_row)) as [Hp Hm].
  - apply elem_of_load_data. exists sample_row. split; [reflexivity|left].
  - split; [exact Hp|]. apply Hm. intros H. discriminate H.
Defined.

End Loading.

(** ** Grouping *)

Section Keys.

Lemma ascii_compare_refl (c : ascii) : Ascii.compare c c = Eq.
Proof. unfold Ascii.compare. apply N.compare_refl. Qed.

Lemma compare_refl (s : string) : String.compare s s = Eq.
Proof.
  induction s as [|c s IH]; [reflexivity|].
  simpl. now rewrite ascii_compare_refl.
Qed.

Lemma compare_Eq (s1 s2 : string) : String.compare s1 s2 = Eq ↔ s1 = s2.
Proof.
  split; [apply String.compare_eq_iff|]. intros ->. apply compare_refl.
Qed.

Lemma compare_Gt (s1 s2 : string) :
  String.compare s1 s2 = Gt ↔ key_lt s2 s1.
Proof.
  unfold key_lt. rewrite (String.compare_antisym s1 s2).
  destruct (String.compare s2 s1); simpl; intuition congruence.
Qed.

Lemma ascii_compare_trans (a b c : ascii) :
  Ascii.compare a b = Lt → Ascii.compare b c = Lt → Ascii.compare a c = Lt.
Proof.
  unfold Ascii.compare. rewrite !N.compare_lt_iff. lia.
Qed.

Global Instance key_lt_trans : Transitive key_lt.
Proof.
  unfold key_lt. intros s1. induction s1 as [|a s1 IH]; intros [|b s2] [|c s3];
    simpl; try congruence.
  destruct (Ascii.compare a b) eqn:Eab; try congruence;
    destruct (Ascii.compare b c) eqn:Ebc; try congruence; intros H12 H23.
  - apply Ascii.compare_eq_iff in Eab, Ebc. subst.
    rewrite ascii_compare_refl. eauto.
  - apply Ascii.compare_eq_iff in Eab. subst. now rewrite Ebc.
  - apply Ascii.compare_eq_iff in Ebc. subst. now rewrite Eab.
  - now rewrite (ascii_compare_trans a b c).
Qed.

Global Instance key_lt_irrefl : Irreflexive key_lt.
Proof. intros s H. unfold key_lt in H. now rewrite compare_refl in H. Qed.

Lemma StronglySorted_key_lt_NoDup (ks : list string) :
  StronglySorted key_lt ks → NoDup ks.
Proof.
  induction 1 as [|k ks _ IH Hall]; constructor; [|exact IH].
  intros Hin. rewrite Forall_forall in Hall.
  exact (irreflexivity key_lt k (Hall k Hin)).
Qed.
End Keys.

Section Grouping.
Implicit Types (g : list (string * Q)) (view : DataFrame).

Lemma elem_of_upsert_keys (k : string) (v : Q) g (k' : string) :
  k' ∈ (upsert k v g).*1 ↔ k' = k ∨ k' ∈ g.*1.
Proof.
  induction g as [|[k0 s0] g IH]; simpl.
  - rewrite elem_of_cons. reflexivity.
  - destruct (String.compare k k0) eqn:E; simpl.
    + apply compare_Eq in E as ->. rewrite !elem_of_cons. tauto.
    + rewrite !elem_of_cons. simpl. tauto.
    + rewrite !elem_of_cons, IH. tauto.
Qed.

Lemma upsert_sorted (k : string) (v : Q) g :
  StronglySorted key_lt g.*1 → StronglySorted key_lt (upsert k v g).*1.
Proof.
  induction g as [|[k0 s0] g IH]; simpl; intros Hs.
  - repeat constructor.
  - apply StronglySorted_inv in Hs as [Hs Hall].
    destruct (String.compare k k0) eqn:E; simpl.
    + now constructor.
    + constructor; [now constructor|].
      constructor; [exact E|].
      eapply Forall_impl; [exact Hall|]. intros x Hx. now transitivity k0.
    + constructor; [now apply IH|].
      apply Forall_forall. intros x Hx.
      apply elem_of_upsert_keys in Hx as [->|Hx].
      * now apply compare_Gt.
      * rewrite Forall_forall in Hall. now apply Hall.
Qed.

Lemma group_total_upsert (k : string) (v : Q) g (k' : string) :
  (group_total k' (upsert k v g) ==
   group_total k' g + (if decide (k = k') then v else 0))%Q.
Proof.
  induction g as [|[k0 s0] g IH]; simpl.
  - destruct (decide (k = k')); ring.
  - destruct (String.compare k k0) eqn:E; simpl.
    + apply compare_Eq in E as ->.
      destruct (decide (k0 = k')); ring.
    + destruct (decide (k = k')), (decide (k0 = k')); ring.
    + destruct (decide (k0 = k')); rewrite IH; ring.
Qed.

Lemma group_total_absent (k : string) g : k ∉ g.*1 → group_total k g = 0%Q.
Proof.
  induction g as [|[k0 s0] g IH]; simpl; [reflexivity|].
  rewrite not_elem_of_cons. intros [Hne Hnin].
  rewrite decide_False by congruence. now apply IH.
Qed.

(** With one entry per key, the entry of a key holds all of its total. *)
Lemma group_total_elem (k : string) (s : Q) g :
  NoDup g.*1 → (k, s) ∈ g → (group_total k g == s)%Q.
Proof.
  induction g as [|[k0 s0] g IH]; simpl; intros Hnd Hin.
  - now apply elem_of_nil in Hin.
  - apply NoDup_cons in Hnd as [Hk0 Hnd].
    apply elem_of_cons in Hin as [Heq|Hin].
    + inversion Heq; subst. rewrite decide_True by reflexivity.
      rewrite (group_total_absent k0 g Hk0). ring.
    + rewrite decide_False; [now apply IH|].
      intros ->. apply Hk0. apply list_elem_of_fmap. now exists (k, s).
Qed.

Lemma groupby_sum_snoc (key : SaleRecord → string) (val : SaleRecord → Q)
    view (r : SaleRecord) :
  groupby_sum key val (view ++ [r]) =
  upsert (key r) (val r) (groupby_sum key val view).
Proof. unfold groupby_sum. now rewrite fold_left_app. Qed.

(** The groups' keys are the keys present in the view. *)
Lemma groupby_sum_keys (key : SaleRecord → string) (val : SaleRecord → Q)
    view (k : string) :
  k ∈ (groupby_sum key val view).*1 ↔ ∃ r, r ∈ view ∧ key r = k.
Proof.
  induction view as [|r view IH] using rev_ind.
  - simpl. split; [intros H; now apply elem_of_nil in H|].
    intros (r & H & _). now apply elem_of_nil in H.
  - rewrite groupby_sum_snoc, elem_of_upsert_keys, IH. split.
    + intros [->|(r' & Hin & Hk)].
      * exists r. split; [|reflexivity]. apply elem_of_app. right. left.
      * exists r'. split; [|exact Hk]. apply elem_of_app. now left.
    + intros (r' & Hin & Hk). apply elem_of_app in Hin as [Hin|Hin].
      * right. now exists r'.
      * apply list_elem_of_singleton in Hin as ->. now left.
Qed.

(** The groups come in strictly ascending key order. *)
Lemma groupby_sum_sorted (key : SaleRecord → string) (val : SaleRecord → Q)
    view :
  StronglySorted key_lt (groupby_sum key val view).*1.
Proof.
  induction view as [|r view IH] using rev_ind; [constructor|].
  rewrite groupby_sum_snoc. now apply upsert_sorted.
Qed.

Lemma groupby_sum_NoDup (key : SaleRecord → string) (val : SaleRecord → Q)
    view :
  NoDup (groupby_sum key val view).*1.
Proof. apply StronglySorted_key_lt_NoDup, groupby_sum_sorted. Qed.

Lemma groupby_sum_total (key : SaleRecord → string) (val : SaleRecord → Q)
    view (k : string) :
  (group_total k (groupby_sum key val view) ==
   sum_Q (val <$> group_rows key k view))%Q.
Proof.
  unfold group_rows. induction view as [|r view IH] using rev_ind.
  - reflexivity.
  - rewrite groupby_sum_snoc, group_total_upsert, IH.
    rewrite filter_app, fmap_app, sum_Q_app, filter_cons, filter_nil.
    destruct (decide (key r = k)); simpl.
    + unfold sum_Q at 3. simpl. ring.
    + unfold sum_Q at 3. simpl. ring.
Qed.

(** Each group's amount is the sum over the rows of the group. *)
Lemma groupby_sum_value (key : SaleRecord → string) (val : SaleRecord → Q)
    view (k : string) (s : Q) :
  (k, s) ∈ groupby_sum key val view →
  (s == sum_Q (val <$> group_rows key k view))%Q.
Proof.
  intros Hin. rewrite <- groupby_sum_total.
  symmetry. apply group_total_elem; [apply groupby_sum_NoDup|exact Hin].
Qed.
End Grouping.

(** ** The year-month key sorts by calendar month *)

(** Settles a goal [(a ?= b) = c] on [N] once the hypotheses order [a]
    and [b]. *)
Ltac settle_compare :=
  first [ apply N.compare_eq_iff; lia
        | apply N.compare_lt_iff; lia
        | apply N.compare_gt_iff; lia ].

Section YearMonth.
Local Open Scope N_scope.

Lemma compare_app (a b c d : string) :
  String.length a = String.length c →
  String.compare (a ++ b) (c ++ d) =
  match String.compare a c with Eq => String.compare b d | o => o end.
Proof.
  revert c. induction a as [|x a IH]; intros [|y c]; simpl; try discriminate.
  - reflexivity.
  - intros Hlen. destruct (Ascii.compare x y); try reflexivity.
    apply IH. congruence.
Qed.

Lemma digit_compare (a b : N) :
  Ascii.compare (digit a) (digit b) = (a mod 10 ?= b mod 10).
Proof.
  unfold Ascii.compare, digit.
  assert (Hten : 10 ≠ 0) by discriminate.
  pose proof (N.mod_upper_bound a 10 Hten).
  pose proof (N.mod_upper_bound b 10 Hten).
  rewrite !N_ascii_embedding by lia.
  destruct (N.compare_spec (a mod 10) (b mod 10)); settle_compare.
Qed.

Lemma length_append (a b : string) :
  String.length (a ++ b) = (String.length a + String.length b)%nat.
Proof. induction a as [|x a IH]; simpl; [reflexivity|now rewrite IH]. Qed.

Lemma zfill_length (w : nat) (n : N) : String.length (zfill w n) = w.
Proof.
  revert n. induction w as [|w IH]; intros n; simpl; [reflexivity|].
  rewrite length_append, IH. simpl. lia.
Qed.

Lemma compare_lex_base (q1 r1 q2 r2 : N) :
  r1 < 10 → r2 < 10 →
  (10 * q1 + r1 ?= 10 * q2 + r2) =
  match q1 ?= q2 with Eq => r1 ?= r2 | o => o end.
Proof.
  intros H1 H2.
  destruct (N.compare_spec q1 q2); destruct (N.compare_spec r1 r2);
    settle_compare.
Qed.

(** Comparing two numbers is comparing their quotients by ten, then
    their last digits. *)
Lemma compare_last_digit (n1 n2 : N) :
  (n1 ?= n2) =
  match n1 / 10 ?= n2 / 10 with Eq => n1 mod 10 ?= n2 mod 10 | o => o end.
Proof.
  assert (Hten : 10 ≠ 0) by discriminate.
  rewrite (N.div_mod n1 10 Hten) at 1. rewrite (N.div_mod n2 10 Hten) at 1.
  apply compare_lex_base; now apply N.mod_upper_bound.
Qed.

(** On numbers that fit the width, the order of the padded numerals is
    the order of the numbers. *)
Lemma zfill_compare (w : nat) (n1 n2 : N) :
  n1 < 10 ^ N.of_nat w → n2 < 10 ^ N.of_nat w →
  String.compare (zfill w n1) (zfill w n2) = (n1 ?= n2).
Proof.
  revert n1 n2. induction w as [|w IH]; intros n1 n2 H1 H2.
  - simpl in *. symmetry. apply N.compare_eq_iff. lia.
  - rewrite Nat2N.inj_succ, N.pow_succ_r' in H1, H2.
    simpl. rewrite compare_app by now rewrite !zfill_length.
    rewrite IH by (apply N.Div0.div_lt_upper_bound; lia).
    rewrite (compare_last_digit n1 n2). simpl. rewrite digit_compare.
    now destruct (n1 mod 10 ?= n2 mod 10).
Qed.

Lemma year_month_compare (d1 d2 : date) :
  valid_date d1 → valid_date d2 →
  String.compare (year_month d1) (year_month d2) =
  (month_ordinal d1 ?= month_ordinal d2).
Proof.
  unfold valid_date, year_month, month_ordinal. intros [Hy1 Hm1] [Hy2 Hm2].
  rewrite compare_app by now rewrite !zfill_length.
  rewrite (zfill_compare 4) by (simpl; lia).
  rewrite (compare_app "-" _ "-" _) by reflexivity.
  change (String.compare "-" "-") with Eq. cbv iota.
  rewrite (zfill_compare 2) by (simpl; lia).
  destruct (N.compare_spec (year d1) (year d2));
    destruct (N.compare_spec (month d1) (month d2)); symmetry;
    settle_compare.
Qed.
End YearMonth.

(** ** The charts *)

Section Charts.
Implicit Types (view : DataFrame).

(** C9.  The monthly trend has one entry for each year-month key present
    in the view and no other; the entry's amount is the sum of the sales
    of the view's rows with that key; the entries come in strictly
    ascending key order, which is the order of the calendar months. *)
Theorem sales_trend_by_month (csv : list RawRecord) (sel : Selection) :
  StronglySorted key_lt (sales_trend (view_of csv sel)).*1 ∧
  NoDup (sales_trend (view_of csv sel)).*1 ∧
  (∀ k, k ∈ (sales_trend (view_of csv sel)).*1 ↔
        ∃ r, r ∈ view_of csv sel ∧ YEAR_MONTH r = k) ∧
  (∀ k s, (k, s) ∈ sales_trend (view_of csv sel) →
          (s == sum_Q ((λ r : SaleRecord, SALES r) <$>
                       group_rows YEAR_MONTH k (view_of csv sel)))%Q) ∧
  (∀ r1 r2 : SaleRecord, r1 ∈ view_of csv sel → r2 ∈ view_of csv sel →
            valid_date (ORDER_DATE r1) → valid_date (ORDER_DATE r2) →
            String.compare (YEAR_MONTH r1) (YEAR_MONTH r2) =
            (month_ordinal (ORDER_DATE r1) ?= month_ordinal (ORDER_DATE r2))%N).
Proof.
  unfold sales_trend.
  split; [apply groupby_sum_sorted|].
  split; [apply groupby_sum_NoDup|].
  split; [intros k; apply groupby_sum_keys|].
  split; [intros k s; apply groupby_sum_value|].
  intros r1 r2 H1 H2 Hd1 Hd2.
  apply elem_of_filtered_df in H1 as [H1 _], H2 as [H2 _].
  apply elem_of_load_data in H1 as (raw1 & -> & _), H2 as (raw2 & -> & _).
  now apply year_month_compare.
Qed.

(** There are as many groups as distinct keys. *)
Lemma groupby_sum_length (key : SaleRecord → string) (val : SaleRecord → Q)
    view :
  List.length (groupby_sum key val view) = nunique (key <$> view).
Proof.
  unfold nunique. rewrite <- (length_fmap fst).
  apply Permutation_length, NoDup_Permutation.
  - apply groupby_sum_NoDup.
  - apply NoDup_unique.
  - intros k. rewrite groupby_sum_keys, elem_of_unique, list_elem_of_fmap.
    split; intros (r & H1 & H2); eauto.
Qed.

Global Instance larger_first_total {K} : Total (@larger_first K).
Proof.
  intros a b. unfold larger_first.
  destruct (Qlt_le_dec (snd a) (snd b)) as [H|H]; [right|left]; auto.
  now apply Qlt_le_weak.
Qed.

Global Instance larger_first_trans {K} : Transitive (@larger_first K).
Proof.
  intros a b c Hab Hbc. unfold larger_first in *.
  now apply (Qle_trans _ (snd b)).
Qed.

Lemma nlargest_sorted {K} (n : nat) (s : list (K * Q)) :
  StronglySorted larger_first (nlargest n s).
Proof.
  unfold nlargest.
  apply (StronglySorted_app_1_l _ _ (drop n (stable_sort larger_first s))).
  rewrite take_drop. apply stable_sort_sorted; apply _.
Qed.

Lemma nlargest_length {K} (n : nat) (s : list (K * Q)) :
  List.length (nlargest n s) = min n (List.length s).
Proof.
  unfold nlargest. rewrite length_take.
  now rewrite (Permutation_length (stable_sort_Permutation larger_first s)).
Qed.

Lemma elem_of_nlargest {K} (n : nat) (s : list (K * Q)) (e : K * Q) :
  e ∈ nlargest n s → e ∈ s.
Proof.
  unfold nlargest. intros He.
  rewrite <- (stable_sort_Permutation larger_first s).
  eapply elem_of_sublist; [exact He|apply sublist_take].
Qed.

(** What [nlargest] leaves out is no larger than what it keeps. *)
Lemma nlargest_dominates {K} (n : nat) (s : list (K * Q)) (e e' : K * Q) :
  e ∈ nlargest n s → e' ∈ drop n (stable_sort larger_first s) →
  larger_first e e'.
Proof.
  unfold nlargest. intros He He'.
  eapply (StronglySorted_app_1_elem_of larger_first); [|exact He|exact He'].
  rewrite take_drop. apply stable_sort_sorted; apply _.
Qed.

(** C5, as it holds.  When the sales amounts are read as a column of
    numbers, the top customers of every filtered frame are customers of
    it with their summed sales, the larger sum first; there are at most
    10 of them, and fewer than 10 only when the filtered frame has fewer
    than 10 distinct customer names (there are exactly as many as the
    smaller of 10 and that number); no customer left out has a larger sum
    than one that is listed. *)
Theorem top_customers_ranked (df : DataFrame) (sel : Selection) :
  sales_dtype df = dtype_numeric →
  ∃ top,
    top_customers (sales_dtype df) (filtered_df df sel) = Returns top ∧
    StronglySorted larger_first top ∧
    (List.length top ≤ 10)%nat ∧
    ((List.length top < 10)%nat →
     (nunique ((λ r : SaleRecord, CUSTOMER_NAME r) <$> filtered_df df sel)
        < 10)%nat) ∧
    List.length top =
      min 10 (nunique ((λ r : SaleRecord, CUSTOMER_NAME r)
                         <$> filtered_df df sel)) ∧
    (∀ k s, (k, s) ∈ top →
       (∃ r : SaleRecord, r ∈ filtered_df df sel ∧ CUSTOMER_NAME r = k) ∧
       (s == sum_Q ((λ r : SaleRecord, SALES r) <$>
                    group_rows (λ r, CUSTOMER_NAME r) k
                      (filtered_df df sel)))%Q) ∧
    (∀ e e', e ∈ top →
       e' ∈ groupby_sum (λ r, CUSTOMER_NAME r) (λ r, SALES r)
              (filtered_df df sel) →
       e' ∉ top → (snd e' <= snd e)%Q).
Proof.
  intros Hdt. set (view := filtered_df df sel).
  rewrite Hdt. cbn [top_customers].
  eexists. split; [reflexivity|].
  pose proof (nlargest_length 10
    (groupby_sum (λ r, CUSTOMER_NAME r) (λ r, SALES r) view)) as Hlen.
  rewrite groupby_sum_length in Hlen.
  split; [apply nlargest_sorted|].
  split; [lia|]. split; [lia|]. split; [exact Hlen|]. split.
  - intros k s Hin. apply elem_of_nlargest in Hin. split.
    + apply (groupby_sum_keys _ (λ r, SALES r)).
      apply list_elem_of_fmap. now exists (k, s).
    + now apply groupby_sum_value.
  - intros e e' He He' Hout.
    apply (nlargest_dominates 10 _ e e' He).
    rewrite <- (stable_sort_Permutation larger_first) in He'.
    rewrite <- (take_drop 10 (stable_sort _ _)) in He'.
    apply elem_of_app in He' as [He'|He']; [contradiction|exact He'].
Qed.

Lemma top_customers_ranked_sample :
  ∃ top,
    top_customers (sales_dtype (load_data sample_csv))
      (filtered_df (load_data sample_csv) only_2003) = Returns top ∧
    StronglySorted larger_first top ∧
    (List.length top ≤ 10)%nat.
Proof.
  destruct (top_customers_ranked (load_data sample_csv) only_2003)
    as (top & Htop & Hsorted & Hlen & _); [reflexivity|].
  exists top. split; [exact Htop|]. split; [exact Hsorted|exact Hlen].
Defined.

(** C5 fails as stated: on a file with a header and no row the filtered
    frame is empty and the statement that computes the top customers
    raises [TypeError]; no table of top customers is made. *)
Lemma top_customers_header_only :
  filtered_df (load_data []) no_year = [] ∧
  top_customers (sales_dtype (load_data []))
    (filtered_df (load_data []) no_year) = Raises TypeError ∧
  ¬ ∃ top, top_customers (sales_dtype (load_data []))
             (filtered_df (load_data []) no_year) = Returns top.
Proof.
  split; [reflexivity|]. split; [reflexivity|].
  intros [top H]. discriminate H.
Qed.

Lemma sum_counts_bump (k : string) (counts : list (string * nat)) :
  sum_list_with snd (bump k counts) = S (sum_list_with snd counts).
Proof.
  induction counts as [|[k' c] counts IH]; simpl; [reflexivity|].
  destruct (String.eqb k k'); simpl; [reflexivity|]. rewrite IH. lia.
Qed.

Lemma sum_counts_fold (col : list string) (counts : list (string * nat)) :
  sum_list_with snd (fold_left (λ counts k, bump k counts) col counts) =
  (List.length col + sum_list_with snd counts)%nat.
Proof.
  revert counts. induction col as [|k col IH]; intros counts; simpl;
    [reflexivity|].
  rewrite IH, sum_counts_bump. lia.
Qed.

Lemma value_counts_total (col : list string) :
  sum_list_with snd (value_counts col) = List.length col.
Proof.
  unfold value_counts. rewrite stable_sort_Permutation, sum_counts_fold.
  simpl. lia.
Qed.

(** C7, as it holds.  When the sales amounts are read as a column of
    numbers and the selection leaves no row, no aggregate raises and each
    is the empty one: total sales is 0, the two averages are
    not-a-number, no order is counted, the five grouped aggregates have
    no entry, and the table of raw rows is empty. *)
Theorem empty_view_aggregates (df : DataFrame) (sel : Selection) :
  sales_dtype df = dtype_numeric → filtered_df df sel = [] →
  aggregates df sel =
  Returns {| agg_total_sales := 0%Q;
             agg_avg_order_value := NaN;
             agg_total_orders := 0%nat;
             agg_avg_profit_margin := NaN;
             agg_sales_trend := [];
             agg_sales_by_product := [];
             agg_sales_by_country := [];
             agg_deal_size_dist := [];
             agg_top_customers := [];
             agg_raw_rows := [] |}.
Proof.
  intros Hdt Hempty. unfold aggregates. rewrite Hempty, Hdt. reflexivity.
Qed.

Lemma empty_view_aggregates_sample :
  aggregates (load_data sample_csv) no_year =
  Returns {| agg_total_sales := 0%Q;
             agg_avg_order_value := NaN;
             agg_total_orders := 0%nat;
             agg_avg_profit_margin := NaN;
             agg_sales_trend := [];
             agg_sales_by_product := [];
             agg_sales_by_country := [];
             agg_deal_size_dist := [];
             agg_top_customers := [];
             agg_raw_rows := [] |}.
Proof.
  apply (empty_view_aggregates (load_data sample_csv) no_year);
    reflexivity.
Defined.

(** C7 fails as stated: on a file with a header and no row every
    selection leaves an empty filtered frame, and the run raises
    [TypeError] where it computes the top customers. *)
Lemma header_only_aggregates_raise :
  filtered_df (load_data []) no_year = [] ∧
  aggregates (load_data []) no_year = Raises TypeError.
Proof. split; reflexivity. Qed.
End Charts.

(** ** Re-deriving, and the two-row scenario *)

Section Scenario.

(** The derived columns are a function of the source row: deriving them
    again from the source columns of a loaded frame gives the same
    frame. *)
Theorem load_data_source_fixed (csv : list RawRecord) :
  load_data (source <$> load_data csv) = load_data csv.
Proof.
  unfold load_data. rewrite <- !list_fmap_compose.
  apply list_fmap_ext. intros i raw _. reflexivity.
Qed.

(** Two rows, of 2003 with sales 100 and of 2004 with sales 200: with
    only 2003 selected, total sales is 100 and one order is counted. *)
Theorem only_2003_of_two_rows (r1 r2 : RawRecord) :
  YEAR r1 = 2003%Z → YEAR r2 = 2004%Z →
  SALES r1 = 100%Q → SALES r2 = 200%Q →
  filtered_df (load_data [r1; r2]) (year_2003_of (load_data [r1; r2]))
    = [derive r1] ∧
  (total_sales (filtered_df (load_data [r1; r2])
                  (year_2003_of (load_data [r1; r2]))) == 100)%Q ∧
  total_orders (filtered_df (load_data [r1; r2])
                  (year_2003_of (load_data [r1; r2]))) = 1%nat.
Proof.
  intros Hy1 Hy2 Hs1 Hs2.
  assert (Hview : filtered_df (load_data [r1; r2])
                    (year_2003_of (load_data [r1; r2])) = [derive r1]).
  { unfold load_data. rewrite !fmap_cons, !filtered_df_cons.
    rewrite decide_True, decide_False; [reflexivity| |].
    - intros (Hy & _). simpl in Hy. rewrite Hy2 in Hy.
      apply list_elem_of_singleton in Hy. discriminate.
    - unfold selected, year_2003_of, select_all. simpl. rewrite Hy1.
      repeat split; left. }
  rewrite Hview. split; [reflexivity|]. split; [|reflexivity].
  unfold total_sales, sum_Q. simpl. rewrite Hs1. reflexivity.
Qed.

Lemma only_2003_of_two_rows_sample :
  (total_sales
     (filtered_df (load_data [row_2003; row_2004])
        (year_2003_of (load_data [row_2003; row_2004]))) == 100)%Q.
Proof.
  exact (proj1 (proj2 (only_2003_of_two_rows row_2003 row_2004
                         eq_refl eq_refl eq_refl eq_refl))).
Defined.
End Scenario.

(** ** The columns of the export *)

Section Columns.

Lemma setitem_present (name : string) (columns : list string) :
  name ∈ columns → setitem name columns = columns.
Proof. intros Hin. unfold setitem. now rewrite decide_True. Qed.

Lemma elem_of_setitem (name c : string) (columns : list string) :
  c ∈ setitem name columns ↔ c = name ∨ c ∈ columns.
Proof.
  unfold setitem. destruct (decide (name ∈ columns)) as [Hin|Hout].
  - split; [now right|]. now intros [->|H].
  - rewrite elem_of_app, list_elem_of_singleton. tauto.
Qed.

Lemma setitem_prefix (name : string) (columns : list string) :
  columns `prefix_of` setitem name columns.
Proof.
  unfold setitem. destruct (decide (name ∈ columns)); [reflexivity|].
  now apply prefix_app_r.
Qed.

End Columns.

(** ** The widgets *)

Section Widgets.
Implicit Types (df : DataFrame) (sel : Selection) (r : SaleRecord).

Lemma unique_sublist {A} `{EqDecision A} (col : list A) :
  unique col `sublist_of` col.
Proof.
  induction col as [|x col IH]; simpl; [reflexivity|].
  apply sublist_skip. etransitivity; [apply sublist_filter|exact IH].
Qed.

Lemma filter_ext_elem {A} (P Q : A → Prop) `{∀ x, Decision (P x)}
    `{∀ x, Decision (Q x)} (l : list A) :
  (∀ x, x ∈ l → P x ↔ Q x) → filter P l = filter Q l.
Proof.
  induction l as [|x l IH]; intros Hext; [reflexivity|].
  rewrite !filter_cons, IH by (intros y Hy; apply Hext; now right).
  assert (Hx : P x ↔ Q x) by (apply Hext; left).
  destruct (decide (P x)), (decide (Q x)); try reflexivity; tauto.
Qed.

(** With one year chosen in the year widget and the other widgets left
    at their defaults, the view is the rows of that year, all of them and
    in their order. *)
Theorem only_year_view df (y : Z) :
  filtered_df df (only_year y df) = filter (λ r : SaleRecord, YEAR r = y) df.
Proof.
  rewrite filtered_df_filter. unfold filtered_view.
  apply filter_ext_elem. intros r Hr. unfold selected, only_year, select_all.
  simpl. rewrite list_elem_of_singleton, !elem_of_unique.
  split; [tauto|]. intros Hy.
  repeat split; try exact Hy; apply list_elem_of_fmap; now exists r.
Qed.
End Widgets.

(** ** The customers that are listed *)

Section Customers.
Implicit Types (df view : DataFrame) (sel : Selection) (r : SaleRecord).

(** When the sales amounts are read as a column of numbers, the top
    customers are all different, and when the filtered frame has at most
    10 customers nobody is left out: the chart lists every customer of
    the filtered frame once. *)
Theorem top_customers_cover df sel :
  sales_dtype df = dtype_numeric →
  ∃ top,
    top_customers (sales_dtype df) (filtered_df df sel) = Returns top ∧
    NoDup top.*1 ∧
    ((nunique ((λ r : SaleRecord, CUSTOMER_NAME r) <$> filtered_df df sel)
        ≤ 10)%nat →
     top ≡ₚ groupby_sum (λ r, CUSTOMER_NAME r) (λ r, SALES r)
              (filtered_df df sel) ∧
     ∀ k, k ∈ top.*1 ↔
          ∃ r : SaleRecord, r ∈ filtered_df df sel ∧ CUSTOMER_NAME r = k).
Proof.
  intros Hdt. set (view := filtered_df df sel).
  rewrite Hdt. cbn [top_customers].
  eexists. split; [reflexivity|]. unfold nlargest.
  set (g := groupby_sum (λ r, CUSTOMER_NAME r) (λ r, SALES r) view).
  assert (Hperm : stable_sort larger_first g ≡ₚ g)
    by apply stable_sort_Permutation.
  split.
  - apply (sublist_NoDup _ (stable_sort larger_first g).*1).
    + rewrite Hperm. apply groupby_sum_NoDup.
    + apply (fmap_sublist _), sublist_take.
  - intros Hfew.
    rewrite take_ge
      by (rewrite (Permutation_length Hperm); unfold g;
          now rewrite groupby_sum_length).
    split; [exact Hperm|].
    intros k. rewrite Hperm. apply groupby_sum_keys.
Qed.

Lemma top_customers_cover_sample :
  ∃ top,
    top_customers (sales_dtype (load_data sample_csv))
      (filtered_df (load_data sample_csv) only_2003) = Returns top ∧
    NoDup top.*1.
Proof.
  destruct (top_customers_cover (load_data sample_csv) only_2003)
    as (top & Htop & Hnd & _); [reflexivity|].
  exists top. split; [exact Htop|exact Hnd].
Defined.
End Customers.

(** ** The deal-size counts *)

Section Counts.
Implicit Types (counts : list (string * nat)) (view : DataFrame).

Lemma elem_of_bump_keys (k k' : string) counts :
  k' ∈ (bump k counts).*1 ↔ k' = k ∨ k' ∈ counts.*1.
Proof.
  induction counts as [|[k0 c0] counts IH]; simpl.
  - rewrite list_elem_of_singleton, elem_of_nil. tauto.
  - destruct (String.eqb_spec k k0) as [->|Hne]; simpl.
    + rewrite !elem_of_cons. tauto.
    + rewrite !elem_of_cons, IH. tauto.
Qed.

Lemma bump_NoDup (k : string) counts :
  NoDup counts.*1 → NoDup (bump k counts).*1.
Proof.
  induction counts as [|[k0 c0] counts IH]; simpl; intros Hnd.
  - apply NoDup_singleton.
  - apply NoDup_cons in Hnd as [Hk0 Hnd].
    destruct (String.eqb_spec k k0) as [->|Hne]; simpl.
    + now apply NoDup_cons.
    + apply NoDup_cons. split; [|now apply IH].
      rewrite elem_of_bump_keys. intros [->|Hin]; [congruence|contradiction].
Qed.

Lemma count_of_bump (k k' : string) counts :
  count_of k' (bump k counts) =
  (count_of k' counts + if decide (k = k') then 1 else 0)%nat.
Proof.
  induction counts as [|[k0 c0] counts IH]; simpl.
  - destruct (decide (k = k')); lia.
  - destruct (String.eqb_spec k k0) as [->|Hne]; simpl.
    + destruct (decide (k0 = k')); lia.
    + rewrite IH. destruct (decide (k0 = k')), (decide (k = k')); lia.
Qed.

Lemma count_of_absent (k : string) counts :
  k ∉ counts.*1 → count_of k counts = 0%nat.
Proof.
  induction counts as [|[k0 c0] counts IH]; simpl; [reflexivity|].
  rewrite not_elem_of_cons. intros [Hne Hnin].
  rewrite decide_False by congruence. now apply IH.
Qed.

Lemma count_of_elem (k : string) (n : nat) counts :
  NoDup counts.*1 → (k, n) ∈ counts → count_of k counts = n.
Proof.
  induction counts as [|[k0 c0] counts IH]; simpl; intros Hnd Hin.
  - now apply elem_of_nil in Hin.
  - apply NoDup_cons in Hnd as [Hk0 Hnd].
    apply elem_of_cons in Hin as [Heq|Hin].
    + inversion Heq; subst. rewrite decide_True by reflexivity.
      rewrite (count_of_absent k0 counts Hk0). lia.
    + rewrite decide_False; [now apply IH|].
      intros ->. apply Hk0. apply list_elem_of_fmap. now exists (k, n).
Qed.

Lemma count_of_Permutation (k : string) counts counts' :
  counts ≡ₚ counts' → count_of k counts = count_of k counts'.
Proof.
  induction 1 as [|[k0 c0] l1 l2 _ IH|[k0 c0] [k1 c1] l|l1 l2 l3 _ IH1 _ IH2];
    simpl.
  - reflexivity.
  - now rewrite IH.
  - destruct (decide (k0 = k)), (decide (k1 = k)); lia.
  - congruence.
Qed.

(** The table being counted, before it is sorted. *)
Lemma counting_fold (col : list string) :
  NoDup (fold_left (λ counts k, bump k counts) col []).*1 ∧
  (∀ k, k ∈ (fold_left (λ counts k, bump k counts) col []).*1 ↔ k ∈ col) ∧
  (∀ k, count_of k (fold_left (λ counts k, bump k counts) col []) =
        List.length (filter (λ x, x = k) col)).
Proof.
  induction col as [|x col (Hnd & Hin & Hcount)] using rev_ind.
  - simpl. split; [constructor|]. split; [|reflexivity].
    intros k. reflexivity.
  - rewrite fold_left_app. simpl. split; [now apply bump_NoDup|]. split.
    + intros k. rewrite elem_of_bump_keys, Hin, elem_of_app,
        list_elem_of_singleton. tauto.
    + intros k. rewrite count_of_bump, Hcount, filter_app, length_app.
      rewrite filter_cons, filter_nil.
      destruct (decide (x = k)); simpl; reflexivity.
Qed.

Global Instance more_frequent_first_total : Total more_frequent_first.
Proof. intros a b. unfold more_frequent_first. lia. Qed.

Global Instance more_frequent_first_trans : Transitive more_frequent_first.
Proof. intros a b c. unfold more_frequent_first. lia. Qed.

(** The table of counts: one entry per value of the column, each
    counting the cells that hold the value (so at least one), the most
    frequent first. *)
Lemma value_counts_entries (col : list string) :
  NoDup (value_counts col).*1 ∧
  StronglySorted more_frequent_first (value_counts col) ∧
  (∀ k, k ∈ (value_counts col).*1 ↔ k ∈ col) ∧
  (∀ k n, (k, n) ∈ value_counts col →
     n = List.length (filter (λ x, x = k) col) ∧ (1 ≤ n)%nat).
Proof.
  unfold value_counts.
  destruct (counting_fold col) as (Hnd & Hin & Hcount).
  set (table := fold_left (λ counts k, bump k counts) col []) in *.
  assert (Hperm : stable_sort more_frequent_first table ≡ₚ table)
    by apply stable_sort_Permutation.
  assert (Hkeys : ∀ k, k ∈ (stable_sort more_frequent_first table).*1 ↔
                       k ∈ col).
  { intros k. now rewrite Hperm, Hin. }
  split; [now rewrite Hperm|].
  split; [apply stable_sort_sorted; apply _|].
  split; [exact Hkeys|].
  intros k n Hkn.
  assert (Hn : n = List.length (filter (λ x, x = k) col)).
  { rewrite <- Hcount, <- (count_of_Permutation k _ _ Hperm).
    symmetry. apply count_of_elem; [now rewrite Hperm|exact Hkn]. }
  split; [exact Hn|].
  assert (Hk : k ∈ (stable_sort more_frequent_first table).*1)
    by (apply list_elem_of_fmap; now exists (k, n)).
  apply Hkeys in Hk.
  assert (Hrin : k ∈ filter (λ x, x = k) col)
    by now apply list_elem_of_filter.
  rewrite Hn. destruct (filter _ col); [now apply elem_of_nil in Hrin|].
  simpl. lia.
Qed.
End Counts.

(** ** Distinct values *)

Section Distinct.
Implicit Types (df view : DataFrame) (sel : Selection) (r : SaleRecord).

Lemma unique_NoDup_id {A} `{EqDecision A} (col : list A) :
  NoDup col → unique col = col.
Proof.
  induction 1 as [|x col Hx _ IH]; simpl; [reflexivity|].
  rewrite IH. f_equal. apply filter_Forall_id, Forall_forall.
  intros y Hy ->. contradiction.
Qed.

Lemma nunique_le_length {A} `{EqDecision A} (col : list A) :
  (nunique col ≤ List.length col)%nat.
Proof. apply sublist_length, unique_sublist. Qed.

Lemma nunique_length_NoDup {A} `{EqDecision A} (col : list A) :
  nunique col = List.length col ↔ NoDup col.
Proof.
  split; [|intros Hnd; unfold nunique; now rewrite unique_NoDup_id].
  unfold nunique. induction col as [|x col IH]; [constructor|].
  simpl. intros Hlen.
  pose proof (length_filter (λ y, y ≠ x) (unique col)) as Hf.
  pose proof (nunique_le_length col) as Hu. unfold nunique in Hu.
  constructor; [|apply IH; lia].
  intros Hx. apply elem_of_unique in Hx.
  apply (length_filter_lt (λ y, y ≠ x)) in Hx; [lia|tauto].
Qed.

Lemma nunique_sublist {A} `{EqDecision A} (col col' : list A) :
  col' `sublist_of` col → (nunique col' ≤ nunique col)%nat.
Proof.
  intros Hsub. unfold nunique. apply submseteq_length, NoDup_submseteq.
  - apply NoDup_unique.
  - intros x. rewrite !elem_of_unique. intros Hx.
    now apply (elem_of_sublist col' col).
Qed.

End Distinct.

(** ** The derived columns of a row *)

Section DerivedColumns.
Local Open Scope Q_scope.

(** Two rows with real dates get the same year-month key exactly when
    their dates fall in the same month of the same year; the key is
    seven characters long. *)
Theorem year_month_bucket (csv : list RawRecord) (r1 r2 : SaleRecord) :
  r1 ∈ load_data csv → r2 ∈ load_data csv →
  valid_date (ORDER_DATE r1) → valid_date (ORDER_DATE r2) →
  (YEAR_MONTH r1 = YEAR_MONTH r2 ↔
   year (ORDER_DATE r1) = year (ORDER_DATE r2) ∧
   month (ORDER_DATE r1) = month (ORDER_DATE r2)) ∧
  String.length (YEAR_MONTH r1) = 7%nat.
Proof.
  intros H1 H2 Hv1 Hv2.
  apply elem_of_load_data in H1 as (raw1 & -> & _).
  apply elem_of_load_data in H2 as (raw2 & -> & _).
  cbn [derive YEAR_MONTH source] in *. split.
  - rewrite <- compare_Eq, (year_month_compare _ _ Hv1 Hv2).
    rewrite N.compare_eq_iff. unfold month_ordinal.
    destruct Hv1 as [_ Hm1], Hv2 as [_ Hm2]. lia.
  - unfold year_month. rewrite !length_append, !zfill_length. reflexivity.
Qed.

Lemma year_month_bucket_sample :
  (YEAR_MONTH (derive sample_row) = YEAR_MONTH (derive row_2003) ↔
   year (ORDER_DATE sample_row) = year (ORDER_DATE row_2003) ∧
   month (ORDER_DATE sample_row) = month (ORDER_DATE row_2003)) ∧
  String.length (YEAR_MONTH (derive sample_row)) = 7%nat.
Proof.
  apply (year_month_bucket [sample_row; row_2003]
           (derive sample_row) (derive row_2003)).
  - apply elem_of_load_data. exists sample_row. split; [reflexivity|left].
  - apply elem_of_load_data. exists row_2003.
    split; [reflexivity|right; left].
  - unfold valid_date. simpl. lia.
  - unfold valid_date. simpl. lia.
Defined.
End DerivedColumns.

(** ** Reruns of the script *)

Section Reruns.

Lemma session_cached (df : DataFrame)
    (runs : list (list RawRecord * Selection)) :
  session (Some df) runs = (λ run, filtered_df df run.2) <$> runs.
Proof.
  induction runs as [|[csv sel] runs IH]; [reflexivity|].
  simpl. now rewrite IH.
Qed.

(** Through a whole session the figures are made from the file as it was
    when the first run read it: each run shows that frame filtered by the
    selection of the run, whatever the file holds by then. *)
Theorem session_first_load (csv : list RawRecord) (sel : Selection)
    (rest : list (list RawRecord * Selection)) :
  session None ((csv, sel) :: rest) =
  (λ run, filtered_df (load_data csv) run.2) <$> ((csv, sel) :: rest).
Proof.
  simpl. now rewrite session_cached.
Qed.
End Reruns.

(** * Properties of the frame as read *)

(** ** Float cells *)

Section FloatCells.
Import AsRead.

Lemma add_not_finite_l (x y : float) :
  is_finite x = false → is_finite (x + y) = false.
Proof.
  unfold is_finite. rewrite add_spec.
  destruct (Prim2SF x) as [| [] | |], (Prim2SF y) as [| [] | |]; simpl; congruence.
Qed.

Lemma add_not_finite_r (x y : float) :
  is_finite y = false → is_finite (x + y) = false.
Proof.
  unfold is_finite. rewrite add_spec.
  destruct (Prim2SF x) as [| [] | |], (Prim2SF y) as [| [] | |]; simpl; congruence.
Qed.

Lemma div_not_finite (x y : float) :
  is_finite x = false → is_finite (x / y) = false.
Proof.
  unfold is_finite. rewrite div_spec.
  destruct (Prim2SF x) as [| [] | |], (Prim2SF y) as [| [] | |]; simpl; congruence.
Qed.
End FloatCells.

(** ** Sums as NumPy computes them *)

Section PairwiseSum.
Import AsRead.

(** Ten cells of 0.1: NumPy's sum is 1, where adding them one after the
    other gives 0.9999999999999999. *)
Example np_sum_ten_tenths :
  np_sum (replicate 10 0.1%float) = 1%float ∧
  add_cells 0%float (replicate 10 0.1%float) = 0.9999999999999999%float.
Proof. split; vm_compute; reflexivity. Qed.

Lemma add_cells_not_finite (acc : float) (cells : list float) :
  is_finite acc = false ∨ Exists (λ x, is_finite x = false) cells →
  is_finite (add_cells acc cells) = false.
Proof.
  unfold add_cells. revert acc.
  induction cells as [|x cells IH]; intros acc [Ha|Hl]; simpl.
  - exact Ha.
  - inversion Hl.
  - apply IH. left. now apply add_not_finite_l.
  - apply IH. apply Exists_inv in Hl as [Hx|Hl].
    + left. now apply add_not_finite_r.
    + now right.
Qed.

Lemma zip_add_not_finite (r cells : list float) :
  List.length r = List.length cells →
  Exists (λ x, is_finite x = false) r ∨
  Exists (λ x, is_finite x = false) cells →
  Exists (λ x, is_finite x = false) (zip_with PrimFloat.add r cells).
Proof.
  revert cells. induction r as [|x r IH]; intros [|y cells] Hlen H;
    try discriminate.
  - destruct H as [H|H]; inversion H.
  - simpl. rewrite Exists_cons.
    destruct H as [H|H]; apply Exists_inv in H as [H|H].
    + left. now apply add_not_finite_l.
    + right. apply IH; [simpl in Hlen; lia | now left].
    + left. now apply add_not_finite_r.
    + right. apply IH; [simpl in Hlen; lia | now right].
Qed.

Lemma add_blocks_not_finite (blocks : nat) (r cells : list float) :
  List.length r = 8%nat → (8 * blocks ≤ List.length cells)%nat →
  Exists (λ x, is_finite x = false) r ∨
  Exists (λ x, is_finite x = false) cells →
  List.length (add_blocks blocks r cells).1 = 8%nat ∧
  (Exists (λ x, is_finite x = false) (add_blocks blocks r cells).1 ∨
   Exists (λ x, is_finite x = false) (add_blocks blocks r cells).2).
Proof.
  revert r cells. induction blocks as [|b IH]; intros r cells Hr Hlen H;
    [now split|].
  cbn [add_blocks].
  assert (Htake : List.length (take 8 cells) = 8%nat)
    by (rewrite length_take; lia).
  apply IH.
  - rewrite length_zip_with. lia.
  - rewrite length_drop. lia.
  - destruct H as [H|H].
    + left. apply zip_add_not_finite; [lia | now left].
    + rewrite <- (take_drop 8 cells), Exists_app in H.
      destruct H as [H|H]; [left | now right].
      apply zip_add_not_finite; [lia | now right].
Qed.

Lemma combine8_not_finite (r : list float) :
  List.length r = 8%nat → Exists (λ x, is_finite x = false) r →
  is_finite (combine8 r) = false.
Proof.
  intros Hlen H.
  do 8 (destruct r as [|? r]; [discriminate Hlen|]).
  destruct r; [|discriminate Hlen]. cbn [combine8].
  repeat (apply Exists_inv in H as [H|H];
    [eauto 6 using add_not_finite_l, add_not_finite_r|]).
  inversion H.
Qed.

Lemma sum_unrolled_not_finite (a : list float) :
  (8 ≤ List.length a)%nat → Exists (λ x, is_finite x = false) a →
  is_finite (sum_unrolled a) = false.
Proof.
  intros Hlen H. unfold sum_unrolled.
  pose proof (Nat.Div0.mul_div_le (List.length a) 8) as Hdiv.
  destruct (add_blocks_not_finite (List.length a / 8 - 1) (take 8 a) (drop 8 a))
    as [Hr Hbad].
  - rewrite length_take. lia.
  - rewrite length_drop. lia.
  - rewrite <- Exists_app, take_drop. exact H.
  - destruct (add_blocks _ _ _) as [r rest]. simpl in *.
    apply add_cells_not_finite.
    destruct Hbad as [Hbad|Hbad]; [left | now right].
    now apply combine8_not_finite.
Qed.

Lemma pairwise_sum_not_finite (depth : nat) (a : list float) :
  Exists (λ x, is_finite x = false) a →
  is_finite (pairwise_sum depth a) = false.
Proof.
  revert a. induction depth as [|d IH]; intros a H; cbn [pairwise_sum];
    repeat case_decide;
    try (apply add_cells_not_finite; now right);
    try (apply sum_unrolled_not_finite; [lia | exact H]).
  set (n2 := (List.length a / 2 - (List.length a / 2) mod 8)%nat).
  rewrite <- (take_drop n2 a), Exists_app in H.
  destruct H as [H|H].
  - apply add_not_finite_l. now apply IH.
  - apply add_not_finite_r. now apply IH.
Qed.

(** One cell that is an infinity or not-a-number makes the sum of the
    column one. *)
Lemma np_sum_not_finite (a : list float) :
  Exists (λ x, is_finite x = false) a → is_finite (np_sum a) = false.
Proof.
  intros H. unfold np_sum. apply add_not_finite_r.
  now apply pairwise_sum_not_finite.
Qed.

(** The bound on the cuts is never reached: any bound from the length of
    the column on gives the same sum. *)
Lemma pairwise_sum_depth (d d' : nat) (a : list float) :
  (List.length a ≤ d)%nat → (List.length a ≤ d')%nat →
  pairwise_sum d a = pairwise_sum d' a.
Proof.
  revert d' a. induction d as [|d IH]; intros [|d'] a Hd Hd';
    cbn [pairwise_sum]; repeat case_decide; try reflexivity; try lia.
  pose proof (Nat.div_mod_eq (List.length a) 2) as Hdiv.
  assert (Hrem : (List.length a mod 2 < 2)%nat)
    by (apply Nat.mod_upper_bound; lia).
  assert (Hmod : ((List.length a / 2) mod 8 < 8)%nat)
    by (apply Nat.mod_upper_bound; lia).
  f_equal; apply IH; rewrite ?length_take, ?length_drop; lia.
Qed.
End PairwiseSum.

(** ** Filtering *)

Section FilteringAsRead.
Import AsRead.
Implicit Types (df view : list LoadedRecord) (sel : Selection)
  (r : LoadedRecord).

Lemma filter_mask_cons_as_read r df sel :
  filter_mask (r :: df) sel = bool_decide (selected sel r) :: filter_mask df sel.
Proof.
  unfold filter_mask, mask_and, isin, selected. simpl. f_equal.
  repeat case_bool_decide; simpl; try reflexivity; tauto.
Qed.

Lemma filtered_df_cons_as_read r df sel :
  filtered_df (r :: df) sel =
  if decide (selected sel r) then r :: filtered_df df sel else filtered_df df sel.
Proof.
  unfold filtered_df. rewrite filter_mask_cons_as_read. simpl.
  destruct (decide (selected sel r)) as [Hs|Hs];
    [rewrite bool_decide_eq_true_2 | rewrite bool_decide_eq_false_2];
    auto.
Qed.

Lemma filtered_df_filter_as_read df sel :
  filtered_df df sel = filter (selected sel) df.
Proof.
  induction df as [|r df IH]; [reflexivity|].
  rewrite filtered_df_cons_as_read, filter_cons, IH. reflexivity.
Qed.

Lemma elem_of_filtered_df_as_read r df sel :
  r ∈ filtered_df df sel ↔ r ∈ df ∧ selected sel r.
Proof.
  rewrite filtered_df_filter_as_read, list_elem_of_filter. tauto.
Qed.

Lemma filtered_df_narrow_as_read df sel sel' :
  (∀ r, selected sel' r → selected sel r) →
  filtered_df df sel' `sublist_of` filtered_df df sel.
Proof.
  intros H. induction df as [|r df IH]; [reflexivity|].
  rewrite !filtered_df_cons_as_read.
  destruct (decide (selected sel' r)) as [Hs'|_].
  - rewrite decide_True by auto. now apply sublist_skip.
  - destruct (decide (selected sel r)); [now apply sublist_cons | exact IH].
Qed.

Lemma deselect_narrows_as_read sel :
  (∀ v r, selected (deselect_year v sel) r → selected sel r) ∧
  (∀ v r, selected (deselect_status v sel) r → selected sel r) ∧
  (∀ v r, selected (deselect_product_line v sel) r → selected sel r) ∧
  (∀ v r, selected (deselect_deal_size v sel) r → selected sel r).
Proof.
  split; [|split; [|split]]; intros v r (Hy & Hs & Hp & Hd); simpl in *;
    rewrite ?elem_of_deselect in *; unfold selected; tauto.
Qed.

Lemma elem_of_load_data_as_read (csv : list CsvRecord) r :
  r ∈ load_data csv ↔ ∃ raw, r = derive raw ∧ raw ∈ csv.
Proof. unfold load_data. apply list_elem_of_fmap. Qed.
End FilteringAsRead.

(** ** Total sales when a value is deselected *)

Section TotalSales.
Import AsRead.
Local Open Scope Q_scope.

Lemma exact_nonneg (x : float) : nonneg_or_missing x = true → 0 <= exact x.
Proof.
  unfold nonneg_or_missing, exact.
  destruct (Prim2SF x) as [| | |[] m e]; try discriminate;
    intros _; try apply Qle_refl.
  simpl. apply Qmult_le_0_compat; [unfold Qle; simpl; lia|].
  apply Qpower_0_le. unfold Qle; simpl; lia.
Qed.

Lemma exact_total_sales_narrow (df : list LoadedRecord) (sel sel' : Selection) :
  Forall (λ r : LoadedRecord, nonneg_or_missing (c_SALES r) = true) df →
  (∀ r, selected sel' r → selected sel r) →
  exact_total_sales (filtered_df df sel') <=
  exact_total_sales (filtered_df df sel).
Proof.
  intros Hpos Hnarrow. unfold exact_total_sales. apply sum_Q_sublist.
  - apply (fmap_sublist _). now apply filtered_df_narrow_as_read.
  - apply Forall_fmap, Forall_forall. intros r Hr.
    apply elem_of_filtered_df_as_read in Hr as [Hr _].
    rewrite Forall_forall in Hpos. apply exact_nonneg. now apply Hpos.
Qed.

(** C6, as it holds.  When every sales amount of the loaded frame is a
    number that is not negative, or is missing, deselecting one value in
    any one of the four widgets, the other three left as they are, never
    increases the sum of the sales amounts of the filtered frame taken as
    real numbers, without rounding. *)
Theorem total_sales_deselect_le (df : list LoadedRecord) (sel : Selection) :
  Forall (λ r : LoadedRecord, nonneg_or_missing (c_SALES r) = true) df →
  (∀ v, exact_total_sales (filtered_df df (deselect_year v sel))
        <= exact_total_sales (filtered_df df sel)) ∧
  (∀ v, exact_total_sales (filtered_df df (deselect_status v sel))
        <= exact_total_sales (filtered_df df sel)) ∧
  (∀ v, exact_total_sales (filtered_df df (deselect_product_line v sel))
        <= exact_total_sales (filtered_df df sel)) ∧
  (∀ v, exact_total_sales (filtered_df df (deselect_deal_size v sel))
        <= exact_total_sales (filtered_df df sel)).
Proof.
  intros Hpos.
  destruct (deselect_narrows_as_read sel) as (Hy & Hs & Hp & Hd).
  split; [|split; [|split]]; intros v; apply exact_total_sales_narrow;
    eauto.
Qed.

Lemma eight_orders_nonneg :
  Forall (λ r : LoadedRecord, nonneg_or_missing (c_SALES r) = true)
    (load_data eight_orders_csv).
Proof.
  unfold load_data, eight_orders_csv.
  repeat apply Forall_cons_2; try apply Forall_nil_2; reflexivity.
Qed.

Lemma total_sales_deselect_le_sample :
  exact_total_sales (filtered_df (load_data eight_orders_csv)
                       (deselect_year (Some 2004%Z) (all_of [2003; 2004]%Z)))
  <= exact_total_sales (filtered_df (load_data eight_orders_csv)
                          (all_of [2003; 2004]%Z)).
Proof.
  exact (proj1 (total_sales_deselect_le (load_data eight_orders_csv)
                  (all_of [2003; 2004]%Z) eight_orders_nonneg)
               (Some 2004%Z)).
Defined.

(** C6 fails as stated.  Of eight orders with no negative amount, the
    one of 2004 is worth 0; with both years selected the total the
    script computes is 444.79999999999995, with 2004 deselected it is
    444.8: the seven amounts left are added one after the other, not as
    a tree, and round to a larger float. *)
Lemma total_sales_rises_by_rounding :
  Forall (λ r : LoadedRecord, nonneg_or_missing (c_SALES r) = true)
    (load_data eight_orders_csv) ∧
  total_sales (filtered_df (load_data eight_orders_csv)
                 (all_of [2003; 2004]%Z)) = 444.79999999999995%float ∧
  total_sales (filtered_df (load_data eight_orders_csv)
                 (deselect_year (Some 2004%Z) (all_of [2003; 2004]%Z)))
    = 444.8%float ∧
  PrimFloat.ltb
    (total_sales (filtered_df (load_data eight_orders_csv)
                    (all_of [2003; 2004]%Z)))
    (total_sales (filtered_df (load_data eight_orders_csv)
                    (deselect_year (Some 2004%Z) (all_of [2003; 2004]%Z))))
  = true.
Proof.
  split; [exact eight_orders_nonneg|].
  split; [vm_compute; reflexivity|].
  split; vm_compute; reflexivity.
Qed.
End TotalSales.

(** ** The margin of a zero-price row and the average margin *)

Section AverageMargin.
Import AsRead.
Implicit Types (view : list LoadedRecord) (sel : Selection).

Example margins_free_sample :
  c_PROFIT_MARGIN <$> load_data free_sample_csv = [neg_infinity; 50%float].
Proof. vm_compute. reflexivity. Qed.

Example margins_minus_zero :
  c_PROFIT_MARGIN <$> load_data minus_zero_csv = [infinity].
Proof. vm_compute. reflexivity. Qed.

Lemma Prim2SF_nan (x : float) : Prim2SF x = S754_nan → x = nan.
Proof. intros H. rewrite <- (SF2Prim_Prim2SF x), H. reflexivity. Qed.

Lemma derive_zero_price_margin (raw : CsvRecord) (s : bool) :
  Prim2SF (c_PRICE_EACH raw) = S754_zero s →
  Prim2SF (c_PROFIT_MARGIN (derive raw)) = zero_price_margin s (c_MSRP raw).
Proof.
  intros Hprice. cbn [derive c_PROFIT_MARGIN cells].
  assert (H100 : Prim2SF 100 = S754_finite false 7036874417766400 (-46))
    by reflexivity.
  rewrite mul_spec, div_spec, sub_spec, Hprice, H100.
  unfold zero_price_margin.
  destruct (Prim2SF (c_MSRP raw)) as [sm|sm| |sm m e], s;
    try destruct sm; reflexivity.
Qed.

Lemma nansum_not_finite (col : list float) :
  Exists (λ x, is_finite x = false ∧ isna x = false) col →
  is_finite (nansum col) = false.
Proof.
  intros H. unfold nansum. apply np_sum_not_finite.
  apply Exists_fmap. eapply Exists_impl; [exact H|].
  intros x [Hx Hna]. simpl. now rewrite Hna.
Qed.

(** One infinite cell makes the mean of the column an infinity or
    not-a-number. *)
Lemma nanmean_not_finite (col : list float) :
  Exists (λ x, is_finite x = false ∧ isna x = false) col →
  is_finite (nanmean col) = false.
Proof.
  intros H. unfold nanmean. destruct (count col); [reflexivity|].
  apply div_not_finite. now apply nansum_not_finite.
Qed.


End AverageMargin.

(** ** The deal-size counts *)

Section DealSizes.
Import AsRead.
Implicit Types (df view : list LoadedRecord) (sel : Selection).

Lemma length_omap_filter {A B} (f : A → option B) (l : list A) :
  List.length (omap f l) = List.length (filter (λ x, is_Some (f x)) l).
Proof.
  induction l as [|x l IH]; [reflexivity|].
  rewrite filter_cons. cbn [omap list_omap].
  destruct (f x) as [y|] eqn:E.
  - rewrite decide_True by eauto. simpl. now rewrite IH.
  - rewrite decide_False by (intros [y Hy]; discriminate). exact IH.
Qed.

Lemma filter_length_all {A} (P : A → Prop) `{∀ x, Decision (P x)}
    (l : list A) :
  List.length (filter P l) = List.length l ↔ ∀ x, x ∈ l → P x.
Proof.
  induction l as [|x l IH].
  - split; [intros _ y Hy; now apply elem_of_nil in Hy | reflexivity].
  - rewrite filter_cons.
    pose proof (length_filter P l) as Hle.
    destruct (decide (P x)) as [Hx|Hx]; simpl.
    + split.
      * intros Hlen y Hy. apply elem_of_cons in Hy as [->|Hy]; [exact Hx|].
        apply IH; [lia | exact Hy].
      * intros Hall. f_equal. apply IH. intros y Hy. apply Hall. now right.
    + split; [lia|]. intros Hall. exfalso. apply Hx, Hall. left.
Qed.

(** C8, as it holds.  The counts of the deal-size distribution add up to
    the number of rows of the filtered frame whose deal size is present:
    never more than the number of its rows, and that number exactly when
    no row of the filtered frame has its deal size missing. *)
Theorem deal_size_dist_total df sel :
  sum_list_with snd (deal_size_dist (filtered_df df sel)) =
    List.length (filter (λ r : LoadedRecord, is_Some (c_DEALSIZE r))
                   (filtered_df df sel)) ∧
  (sum_list_with snd (deal_size_dist (filtered_df df sel))
     ≤ List.length (filtered_df df sel))%nat ∧
  (sum_list_with snd (deal_size_dist (filtered_df df sel))
     = List.length (filtered_df df sel) ↔
   ∀ r : LoadedRecord, r ∈ filtered_df df sel → is_Some (c_DEALSIZE r)).
Proof.
  unfold deal_size_dist. rewrite value_counts_total, length_omap_filter.
  split; [reflexivity|]. split; [apply length_filter|].
  apply filter_length_all.
Qed.

(** C8 fails as stated: of three rows, the deal size of one is empty in
    the file; with every option of the widgets selected the filtered
    frame has the three rows, and the counts add up to two. *)
Lemma deal_size_counts_miss_row :
  List.length (filtered_df (load_data missing_deal_size_csv) (all_of [2003%Z]))
    = 3%nat ∧
  deal_size_dist (filtered_df (load_data missing_deal_size_csv)
                    (all_of [2003%Z])) = [("Small", 2%nat)] ∧
  sum_list_with snd
    (deal_size_dist (filtered_df (load_data missing_deal_size_csv)
                       (all_of [2003%Z])))
    ≠ List.length (filtered_df (load_data missing_deal_size_csv)
                     (all_of [2003%Z])).
Proof.
  split; [reflexivity|]. split; [vm_compute; reflexivity|].
  vm_compute. discriminate.
Qed.
End DealSizes.

(** ** The deal sizes and the orders that are counted *)

Section Counted.
Import AsRead.
Implicit Types (view : list LoadedRecord).

Lemma filter_omap_length {A B} `{EqDecision B} (f : A → option B) (k : B)
    (l : list A) :
  List.length (filter (λ x, x = k) (omap f l)) =
  List.length (filter (λ x, f x = Some k) l).
Proof.
  induction l as [|x l IH]; [reflexivity|].
  rewrite (filter_cons (λ x, f x = Some k)). cbn [omap list_omap].
  destruct (f x) as [y|] eqn:E.
  - rewrite filter_cons.
    destruct (decide (y = k)) as [->|Hne].
    + rewrite decide_True by reflexivity. simpl. now rewrite IH.
    + rewrite decide_False by congruence. exact IH.
  - rewrite decide_False by discriminate. exact IH.
Qed.

(** The slices of the deal-size pie: one per deal size that a row of the
    frame has, each counting the rows of that deal size (so at least
    one), the most frequent first; a row whose deal size is missing is in
    no slice. *)
Theorem deal_size_dist_counts view :
  NoDup (deal_size_dist view).*1 ∧
  StronglySorted more_frequent_first (deal_size_dist view) ∧
  (∀ k, k ∈ (deal_size_dist view).*1 ↔
        ∃ r : LoadedRecord, r ∈ view ∧ c_DEALSIZE r = Some k) ∧
  (∀ k n, (k, n) ∈ deal_size_dist view →
     n = List.length
           (filter (λ r : LoadedRecord, c_DEALSIZE r = Some k) view) ∧
     (1 ≤ n)%nat).
Proof.
  unfold deal_size_dist.
  destruct (value_counts_entries
              (omap (λ r : LoadedRecord, c_DEALSIZE r) view))
    as (Hnd & Hsorted & Hkeys & Hcount).
  split; [exact Hnd|]. split; [exact Hsorted|]. split.
  - intros k. rewrite Hkeys, list_elem_of_omap. reflexivity.
  - intros k n Hkn. destruct (Hcount k n Hkn) as [Hn Hpos].
    split; [|exact Hpos]. now rewrite Hn, filter_omap_length.
Qed.

Lemma omap_nil_iff {A B} (f : A → option B) (l : list A) :
  omap f l = [] ↔ ∀ x, x ∈ l → f x = None.
Proof.
  induction l as [|x l IH]; cbn [omap list_omap].
  - split; [intros _ y Hy; now apply elem_of_nil in Hy | reflexivity].
  - destruct (f x) as [y|] eqn:E.
    + split; [discriminate|]. intros H.
      specialize (H x (list_elem_of_here _ _)). congruence.
    + rewrite IH. split.
      * intros H y Hy. apply elem_of_cons in Hy as [->|Hy]; auto.
      * intros H y Hy. apply H. now right.
Qed.

Lemma omap_sublist_of {A B} (f : A → option B) (l1 l2 : list A) :
  l1 `sublist_of` l2 → omap f l1 `sublist_of` omap f l2.
Proof.
  induction 1 as [|x l1 l2 _ IH|x l1 l2 _ IH]; cbn [omap list_omap].
  - constructor.
  - destruct (f x); [now apply sublist_skip | exact IH].
  - destruct (f x); [now apply sublist_cons | exact IH].
Qed.

End Counted.

(** ** Export and reload *)

Section ExportReload.
Import AsRead.
Implicit Types (fmt : TextFormat) (csv : list CsvRecord) (sel : Selection).

Lemma filtered_df_all_selected (df : list LoadedRecord) sel :
  all_selected df sel → filtered_df df sel = df.
Proof.
  intros (Hy & Hs & Hp & Hd). rewrite filtered_df_filter_as_read.
  apply filter_Forall_id, Forall_forall. intros r Hr.
  repeat split; [apply Hy|apply Hs|apply Hp|apply Hd];
    apply list_elem_of_fmap; now exists r.
Qed.

Lemma read_lines_back fmt csv :
  Forall (reads_back fmt) csv →
  mapM (read_line fmt) (to_csv_line fmt <$> load_data csv) = Some csv.
Proof.
  unfold load_data. induction 1 as [|raw csv Hraw _ IH]; [reflexivity|].
  rewrite !fmap_cons. cbn [mapM]. unfold reads_back in Hraw.
  rewrite Hraw. simpl. rewrite IH. reflexivity.
Qed.


Lemma free_sample_all_selected :
  all_selected (load_data free_sample_csv) (all_of [2004%Z]).
Proof.
  repeat split; intros v Hv; vm_compute in Hv;
    repeat (apply elem_of_cons in Hv as [->|Hv]; [vm_compute; left|]);
    now apply elem_of_nil in Hv.
Qed.

Lemma free_sample_reads_back :
  Forall (reads_back whole_amounts) free_sample_csv.
Proof.
  unfold free_sample_csv.
  repeat apply Forall_cons_2; try apply Forall_nil_2;
    vm_compute; reflexivity.
Qed.


End ExportReload.
